(** * ResearchBot: chat pipeline, rate-limit middleware and share handlers

    A shallow embedding of the server-side TypeScript of the repository:
    - the chat route ([src/unnamed/part_001], lines 1-243):
      [getGroqClient], [scrapeWebsites], [generateAnswer] and the [POST]
      handler;
    - the middleware ([src/unnamed/part_000]): [getIP] and [middleware];
    - the share route ([src/unnamed/part_001], lines 243-325): the [POST]
      and [GET] handlers;
    - the types ([src/unnamed/part_002]): [Source], [Message],
      [Conversation].

    JavaScript strings are sequences of UTF-16 code units, so they are
    modelled as lists of code units ([N]).  Everything the code obtains
    from outside the process (the headless browser, the HTML parser, the
    hosted model, the rate-limiting service, the clock, the key-value
    store) is an explicit argument of the embedded functions. *)

From Stdlib Require Import ZArith NArith List String Ascii Bool Lia.
From Stdlib Require Import Decimal DecimalFacts DecimalN DecimalZ.
From stdpp Require Import base option list gmap.

Local Open Scope N_scope.

(** ** JavaScript strings *)

Module JsString.

Abbreviation jsstring := (list N).

(** A source literal, one code unit per (ASCII) character. *)
Definition lit (s : string) : jsstring :=
  map N_of_ascii (list_ascii_of_string s).

(** The line feed of the template literals: backslash-n in the source. *)
Definition LF : N := 10.

(** [WhiteSpace] and [LineTerminator] of ECMAScript: the class the
    regular expression [\s] matches and [String.prototype.trim] strips. *)
Definition isWhiteSpace (c : N) : bool :=
  ((9 <=? c) && (c <=? 13))
  || (c =? 32) || (c =? 160) || (c =? 5760)
  || ((8192 <=? c) && (c <=? 8202))
  || (c =? 8232) || (c =? 8233) || (c =? 8239) || (c =? 8287)
  || (c =? 12288) || (c =? 65279).

Definition isLineFeed (c : N) : bool := c =? 10.

(** [s.replace(/p+/g, ' ')]: every maximal run of code units in the
    class [p] becomes one space.  [in_run] tells that the previous code
    unit was in the class (its space is already written). *)
Fixpoint replaceRuns (p : N -> bool) (in_run : bool) (s : jsstring) : jsstring :=
  match s with
  | [] => []
  | c :: r =>
      if p c
      then (if in_run then replaceRuns p true r else 32 :: replaceRuns p true r)
      else c :: replaceRuns p false r
  end.

Fixpoint trimStart (s : jsstring) : jsstring :=
  match s with
  | [] => []
  | c :: r => if isWhiteSpace c then trimStart r else s
  end.

Definition trimEnd (s : jsstring) : jsstring := rev (trimStart (rev s)).

(** [s.trim()] *)
Definition trim (s : jsstring) : jsstring := trimEnd (trimStart s).

(** [s.slice(0, n)] for a non-negative [n]. *)
Definition slice0 (n : nat) (s : jsstring) : jsstring := take n s.

(** [s.startsWith(prefix)] *)
Fixpoint startsWith (s prefix : jsstring) {struct prefix} : bool :=
  match prefix, s with
  | [], _ => true
  | _ :: _, [] => false
  | p :: ps, c :: cs => (c =? p) && startsWith cs ps
  end.

(** [s.split(sep)[0]] for a one-unit separator: what precedes its first
    occurrence (the whole string when it does not occur). *)
Fixpoint splitHead (sep : N) (s : jsstring) : jsstring :=
  match s with
  | [] => []
  | c :: r => if c =? sep then [] else c :: splitHead sep r
  end.

(** [parts.join(sep)] *)
Fixpoint join (sep : jsstring) (parts : list jsstring) : jsstring :=
  match parts with
  | [] => []
  | [p] => p
  | p :: ps => p ++ sep ++ join sep ps
  end.

(** A string is truthy when it is not empty. *)
Definition nonEmpty (s : jsstring) : bool :=
  match s with [] => false | _ :: _ => true end.

(** Truthiness of a value that is a string or null/undefined ([None]). *)
Definition truthyString (v : option jsstring) : bool :=
  match v with
  | Some s => nonEmpty s
  | None => false
  end.

(** Decimal digits of [Number.prototype.toString] on an integer. *)
Fixpoint digitsOfUint (d : Decimal.uint) : jsstring :=
  match d with
  | Nil => []
  | D0 d => 48 :: digitsOfUint d
  | D1 d => 49 :: digitsOfUint d
  | D2 d => 50 :: digitsOfUint d
  | D3 d => 51 :: digitsOfUint d
  | D4 d => 52 :: digitsOfUint d
  | D5 d => 53 :: digitsOfUint d
  | D6 d => 54 :: digitsOfUint d
  | D7 d => 55 :: digitsOfUint d
  | D8 d => 56 :: digitsOfUint d
  | D9 d => 57 :: digitsOfUint d
  end.

(** [n.toString()] for an integer-valued number. *)
Definition numberToString (n : Z) : jsstring :=
  match n with
  | Zneg p => 45 :: digitsOfUint (Pos.to_uint p)
  | _ => digitsOfUint (N.to_uint (Z.to_N n))
  end.

End JsString.
Import JsString.

(** ** JSON values

    What [req.json()] and [JSON.parse] produce.  An object keeps its
    members in insertion order.  Numbers are restricted to the integers
    that JavaScript writes with all their digits; the handlers only test
    a number for being zero and print it. *)

#[local] Unset Elimination Schemes.
Inductive json : Type :=
| JNull
| JBool (b : bool)
| JNum (n : Z)
| JStr (s : jsstring)
| JArr (items : list json)
| JObj (members : list (jsstring * json)).
#[local] Set Elimination Schemes.

(** A JavaScript value read from a parsed body: [None] is [undefined]. *)
Abbreviation jsvalue := (option json).

(** [!!v] *)
Definition truthy (v : jsvalue) : bool :=
  match v with
  | None => false
  | Some JNull => false
  | Some (JBool b) => b
  | Some (JNum n) => negb (n =? 0)%Z
  | Some (JStr s) => nonEmpty s
  | Some (JArr _) => true
  | Some (JObj _) => true
  end.

(** [Array.isArray(v)] *)
Definition isArray (v : jsvalue) : bool :=
  match v with Some (JArr _) => true | _ => false end.

(** Own property of an object, by name (the first member of that name). *)
Fixpoint lookupMember (k : jsstring) (members : list (jsstring * json)) : jsvalue :=
  match members with
  | [] => None
  | (k', v) :: rest => if decide (k' = k) then Some v else lookupMember k rest
  end.

(** [String(v)], the conversion a template literal applies. *)
Fixpoint toJsString (v : json) : jsstring :=
  match v with
  | JNull => lit "null"
  | JBool true => lit "true"
  | JBool false => lit "false"
  | JNum n => numberToString n
  | JStr s => s
  | JArr items =>
      join (lit ",")
        ((fix each (l : list json) : list jsstring :=
            match l with
            | [] => []
            | JNull :: r => [] :: each r
            | x :: r => toJsString x :: each r
            end) items)
  | JObj _ => lit "[object Object]"
  end.

(** [v.name] for a name that strings, numbers, booleans and arrays do not
    have: the member of an object, [undefined] otherwise.  ([v] is not
    null: a property access on null throws.) *)
Definition member (name : jsstring) (v : json) : jsvalue :=
  match v with
  | JObj members => lookupMember name members
  | _ => None
  end.

Definition templateValue (v : jsvalue) : jsstring :=
  match v with
  | None => lit "undefined"
  | Some j => toJsString j
  end.

(** ** Effects

    The handlers are [async] functions that call external services and
    throw.  A computation yields the trace of the observable calls it
    made, in order, and either a thrown error or a value. *)

Record JsError := { message : jsstring; stack : jsstring }.

Inductive Event :=
| EvGoto (url : jsstring)            (* page.goto(url, ...) *)
| EvSleep (ms : N)                   (* setTimeout(resolve, ms) awaited *)
| EvPageClose                        (* page.close() *)
| EvBrowserClose                     (* browser.close() *)
| EvModelCall (system user : jsstring). (* chat.completions.create(...) *)

Definition M (A : Type) : Type := (list Event * (JsError + A))%type.

Definition ret {A} (a : A) : M A := ([], inr a).
Definition throw {A} (e : JsError) : M A := ([], inl e).
Definition emit (ev : Event) : M unit := ([ev], inr tt).

Definition bind {A B} (m : M A) (k : A -> M B) : M B :=
  match m with
  | (t, inl e) => (t, inl e)
  | (t, inr a) => let '(t', r) := k a in (t ++ t', r)
  end.

#[global] Instance M_ret : MRet M := @ret.
#[global] Instance M_bind : MBind M := fun A B k m => bind m k.

(** [try { m } catch (e) { h e }] *)
Definition tryCatch {A} (m : M A) (h : JsError -> M A) : M A :=
  match m with
  | (t, inl e) => let '(t', r) := h e in (t ++ t', r)
  | (t, inr a) => (t, inr a)
  end.

(** An awaited external call that may reject. *)
Definition await {A} (r : JsError + A) : M A := ([], r).

Definition rejects (r : option JsError) : M unit :=
  match r with
  | Some e => throw e
  | None => ret tt
  end.

(** ** The outside world of the chat route *)

Record HTTPResponse := { status : Z }.

(** [response.ok()]: a status in the range 200-299. *)
Definition ok (r : HTTPResponse) : bool :=
  ((200 <=? status r) && (status r <=? 299))%Z.

Inductive NavOutcome :=
| NavThrows (e : JsError)
| NavReturns (r : option HTTPResponse).

(** The document [cheerio.load(content)] builds, after the unwanted
    elements were removed: for a selector, [$(sel).length] and
    [$(sel).text()]. *)
Record Document := {
  sel_length : jsstring -> nat;
  sel_text : jsstring -> jsstring
}.

(** What one page of the browser does. *)
Record PageScript := {
  newPage_result : option JsError;   (* browser.newPage() rejects *)
  setup_result : option JsError;     (* setUserAgent ... setJavaScriptEnabled *)
  goto_result : nat -> NavOutcome;   (* the n-th call of page.goto, from 0 *)
  content_result : JsError + Document;    (* page.content(), then cheerio *)
  close_result : option JsError      (* page.close() rejects *)
}.

Record World := {
  launch_result : option JsError;        (* puppeteer.launch() rejects *)
  page_script : nat -> PageScript;       (* the k-th page this browser opens *)
  browser_close_result : option JsError; (* browser.close() rejects *)
  (* the content of the first choice of the completion, if any *)
  completion_result : jsstring -> jsstring -> JsError + option jsstring;
  (* the stack trace the engine attaches to a new Error *)
  stack_of : jsstring -> jsstring
}.

(** [new Error(msg)] *)
Definition Error (w : World) (msg : jsstring) : JsError :=
  {| message := msg; stack := stack_of w msg |}.

(** ** Data model ([src/unnamed/part_002], and [WebSource] of the chat route) *)

Record Source := {
  url : jsstring;
  content : jsstring;
  title : option jsstring
}.

Inductive Role := user | ai.

Record Message := {
  role : Role;
  msg_content : jsstring;
  sources : option (list Source)
}.

Record Conversation := {
  id : jsstring;
  messages : list Message;
  urls : jsstring
}.

(** ** The chat route ([src/unnamed/part_001], lines 1-243) *)

Module Chat.

(** The module-level state and the environment of the process. *)
Record Server := {
  groqClient : bool;               (* the lazily created client is not null *)
  GROQ_API_KEY : option jsstring   (* process.env.GROQ_API_KEY *)
}.

Definition getGroqClient (w : World) (srv : Server) : JsError + Server :=
  if groqClient srv then inr srv
  else if negb (truthyString (GROQ_API_KEY srv))
  then inl (Error w (lit "GROQ_API_KEY environment variable is not set"))
  else inr {| groqClient := true; GROQ_API_KEY := GROQ_API_KEY srv |}.

(** *** [scrapeWebsites] *)

(** The retry loop around [page.goto]: [retries] is the counter of the
    source, [attempt] counts the calls made so far.  A call that returns
    leaves the loop ([break]), whatever it returns. *)
Fixpoint gotoWithRetries (p : PageScript) (u : jsstring) (retries attempt : nat)
  : M (option HTTPResponse) :=
  match retries with
  | O => ret None
  | S retries' =>
      _ ← emit (EvGoto u);
      match goto_result p attempt with
      | NavReturns r => ret r
      | NavThrows e =>
          match retries' with
          | O => throw e
          | S _ => _ ← emit (EvSleep 2000); gotoWithRetries p u retries' (S attempt)
          end
      end
  end.

Definition contentSelectors : list jsstring :=
  [ lit "article"; lit "main";
    lit "[role=" ++ [34] ++ lit "main" ++ [34] ++ lit "]";
    lit ".content"; lit "#content"; lit ".article-body";
    lit ".post-content"; lit ".entry-content"; lit ".main-content" ].

(** The text of the first selector that matches an element. *)
Fixpoint firstMatch (dom : Document) (selectors : list jsstring) : jsstring :=
  match selectors with
  | [] => []
  | selector :: rest =>
      if (0 <? sel_length dom selector)%nat
      then sel_text dom selector
      else firstMatch dom rest
  end.

Definition CONTENT_LIMIT : nat := 8000.

Definition cleanContent (mainContent : jsstring) : jsstring :=
  slice0 CONTENT_LIMIT
    (trim (replaceRuns isLineFeed false (replaceRuns isWhiteSpace false mainContent))).

Definition extractContent (dom : Document) : jsstring :=
  let mainContent := firstMatch dom contentSelectors in
  let mainContent :=
    if nonEmpty mainContent then mainContent else sel_text dom (lit "body") in
  cleanContent mainContent.

Definition pageTitle (dom : Document) (u : jsstring) : jsstring :=
  let t := trim (sel_text dom (lit "title")) in
  if nonEmpty t then t else u.

(** The body of the inner [try] for one URL; [Some] is the record pushed
    on [sources]. *)
Definition scrapeBody (w : World) (p : PageScript) (u : jsstring) : M (option Source) :=
  _ ← rejects (setup_result p);
  response ← gotoWithRetries p u 3 0;
  match response with
  | None => throw (Error w (lit "Failed to load " ++ u ++ lit ": undefined"))
  | Some r =>
      if negb (ok r)
      then throw (Error w (lit "Failed to load " ++ u ++ lit ": "
                             ++ numberToString (status r)))
      else
        dom ← await (content_result p);
        let cleanedContent := extractContent dom in
        if nonEmpty cleanedContent
        then ret (Some {| url := u; content := cleanedContent;
                          title := Some (pageTitle dom u) |})
        else ret None
  end.

(** The inner [try ... catch (scrapeError)]: the error is logged, nothing
    is pushed. *)
Definition scrapeTry (w : World) (p : PageScript) (u : jsstring)
  : list Event * option Source :=
  match scrapeBody w p u with
  | (t, inr r) => (t, r)
  | (t, inl _) => (t, None)
  end.

Definition validScheme (u : jsstring) : bool :=
  startsWith u (lit "http://") || startsWith u (lit "https://").

Definition pushSource (sources : list Source) (r : option Source) : list Source :=
  match r with
  | Some s => sources ++ [s]
  | None => sources
  end.

(** The [for] loop over [urls], inside the outer [try].  [k] counts the
    pages opened so far, [sources] is the array being filled.  The result
    is the array when the loop ends, and the error that ended it early, if
    any: the outer [catch] logs that error and keeps the array. *)
Fixpoint scrapeLoop (w : World) (k : nat) (urls : list json) (sources : list Source)
  : list Event * (list Source * option JsError) :=
  match urls with
  | [] => ([], (sources, None))
  | JStr u :: rest =>
      if negb (validScheme u) then scrapeLoop w k rest sources
      else
        let p := page_script w k in
        match newPage_result p with
        | Some e => ([], (sources, Some e))
        | None =>
            let '(t, r) := scrapeTry w p u in
            let sources' := pushSource sources r in
            match close_result p with
            | Some e => (t ++ [EvPageClose], (sources', Some e))
            | None =>
                let '(t', res) := scrapeLoop w (S k) rest sources' in
                (t ++ EvPageClose :: t', res)
            end
        end
  | _ :: _ =>
      (* not a string: url.startsWith is not a function *)
      ([], (sources, Some (Error w (lit "url.startsWith is not a function"))))
  end.

Definition scrapeWebsites (w : World) (urls : list json) : M (list Source) :=
  _ ← rejects (launch_result w);
  let '(t, (sources, _)) := scrapeLoop w 0 urls [] in
  _ ← ((t ++ [EvBrowserClose], inr tt) : M unit);
  _ ← rejects (browser_close_result w);
  ret sources.

(** *** [generateAnswer] *)

Record Answer := { answer : jsstring; answer_sources : list Source }.

Definition FALLBACK_ANSWER : jsstring :=
  lit "I couldn't extract any content from the provided URLs. Please check the URLs and try again.".

Definition indent : jsstring := repeat 32 24.

Definition SYSTEM_PROMPT : jsstring :=
  lit "You are an AI assistant that provides accurate, " ++ [LF] ++ indent
  ++ lit "contextual answers based strictly on the given sources. " ++ [LF] ++ indent
  ++ lit "Always cite your sources and be transparent about " ++ [LF] ++ indent
  ++ lit "the information's origin.".

Definition sourceBlock (s : Source) : jsstring :=
  lit "[Source: " ++ url s ++ lit "]" ++ [LF] ++ content s.

Definition userPrompt (query : jsvalue) (sources : list Source) : jsstring :=
  let combinedContext := join [LF; LF] (map sourceBlock sources) in
  lit "Context:" ++ [LF] ++ combinedContext ++ [LF; LF]
  ++ lit "Question: " ++ templateValue query.

Definition generateAnswer (w : World) (srv : Server) (query : jsvalue)
  (sources : list Source) : M Answer :=
  match sources with
  | [] => ret {| answer := FALLBACK_ANSWER; answer_sources := [] |}
  | _ :: _ =>
      tryCatch
        (_ ← await (getGroqClient w srv);
         let prompt := userPrompt query sources in
         _ ← emit (EvModelCall SYSTEM_PROMPT prompt);
         completion ← await (completion_result w SYSTEM_PROMPT prompt);
         let text := match completion with Some c => c | None => [] end in
         ret {| answer := if nonEmpty text then text
                          else lit "No answer could be generated.";
                answer_sources := sources |})
        (fun _ => throw (Error w (lit "Failed to generate AI response")))
  end.

(** *** [POST] *)

Inductive ChatBody :=
| ChatError (error : jsstring)
| ChatFailure (error details : jsstring)
| ChatAnswer (a : Answer).

Record ChatResponse := { chat_status : N; chat_body : ChatBody }.

(** [const { query, urls } = await req.json()] on the parsed body. *)
Definition destructure (w : World) (body : json) : M (jsvalue * jsvalue) :=
  match body with
  | JNull => throw (Error w (lit "Cannot destructure property 'query' of 'null'"))
  | _ => ret (member (lit "query") body, member (lit "urls") body)
  end.

Definition arrayItems (v : jsvalue) : list json :=
  match v with
  | Some (JArr items) => items
  | _ => []
  end.

(** [req_json] is what [req.json()] gives: the parsed body, or the error
    it rejects with. *)
Definition POST (w : World) (srv : Server) (req_json : JsError + json)
  : list Event * ChatResponse :=
  match getGroqClient w srv with
  | inl _ =>
      ([], {| chat_status := 500;
              chat_body := ChatError (lit "Server configuration error: GROQ_API_KEY not set") |})
  | inr srv' =>
      let handler : M ChatResponse :=
        body ← await req_json;
        '(query, urls) ← destructure w body;
        if negb (truthy query) || negb (truthy urls) || negb (isArray urls)
        then ret {| chat_status := 400;
                    chat_body := ChatError (lit "Invalid request. Provide a query and URLs.") |}
        else
          sources ← scrapeWebsites w (arrayItems urls);
          if (length sources =? 0)%nat
          then ret {| chat_status := 404;
                      chat_body := ChatError (lit "Could not scrape any content from the provided URLs. Please check the URLs and try again.") |}
          else
            response ← generateAnswer w srv' query sources;
            ret {| chat_status := 200; chat_body := ChatAnswer response |} in
      match handler with
      | (t, inr response) => (t, response)
      | (t, inl error) =>
          (t, {| chat_status := 500;
                 chat_body := ChatFailure (message error) (stack error) |})
      end
  end.

End Chat.

(** ** The rate-limit middleware ([src/unnamed/part_000]) *)

Module Middleware.

Record NextRequest := {
  pathname : jsstring;                 (* request.nextUrl.pathname *)
  x_forwarded_for : option jsstring;   (* request.headers.get(...), None is null *)
  x_real_ip : option jsstring
}.

(** What [ratelimit.limit(identifier)] resolves to; the timestamps are
    integer milliseconds. *)
Record LimitResult := {
  success : bool;
  limit : Z;
  reset : Z;
  remaining : Z
}.

Record Service := {
  ratelimit_limit : jsstring -> JsError + LimitResult;
  Date_now : Z
}.

Inductive Disposition :=
| Forward                                  (* NextResponse.next() *)
| Reply (code : N) (error : jsstring).     (* NextResponse.json({ error }, { status }) *)

Record MwResponse := {
  disposition : Disposition;
  headers : list (jsstring * jsstring)
}.

Definition next : MwResponse := {| disposition := Forward; headers := [] |}.

(** [response.headers.set(name, value)] *)
Fixpoint setHeader (name value : jsstring) (hs : list (jsstring * jsstring))
  : list (jsstring * jsstring) :=
  match hs with
  | [] => [(name, value)]
  | (n, v) :: rest =>
      if decide (n = name) then (name, value) :: rest
      else (n, v) :: setHeader name value rest
  end.

Fixpoint getHeader (name : jsstring) (hs : list (jsstring * jsstring)) : option jsstring :=
  match hs with
  | [] => None
  | (n, v) :: rest => if decide (n = name) then Some v else getHeader name rest
  end.

Definition withHeader (name value : jsstring) (r : MwResponse) : MwResponse :=
  {| disposition := disposition r; headers := setHeader name value (headers r) |}.

Definition getIP (request : NextRequest) : jsstring :=
  if truthyString (x_forwarded_for request)
  then trim (splitHead 44 (default [] (x_forwarded_for request)))
  else if truthyString (x_real_ip request)
  then default [] (x_real_ip request)
  else lit "127.0.0.1".

(** [Math.ceil(a / b)] for integers [a] and a positive [b]. *)
Definition ceilDiv (a b : Z) : Z := (- ((- a) / b))%Z.

Definition middleware (svc : Service) (request : NextRequest) : MwResponse :=
  let attempt : JsError + MwResponse :=
    let ip := getIP request in
    if decide (pathname request = lit "/api/chat") then
      let identifier := ip ++ lit ":" ++ pathname request in
      match ratelimit_limit svc identifier with
      | inl e => inl e
      | inr r =>
          let response :=
            if success r then next
            else {| disposition := Reply 429 (lit "Too many requests"); headers := [] |} in
          let response := withHeader (lit "X-RateLimit-Limit") (numberToString (limit r)) response in
          let response := withHeader (lit "X-RateLimit-Remaining") (numberToString (remaining r)) response in
          let response := withHeader (lit "X-RateLimit-Reset") (numberToString (reset r)) response in
          let response :=
            if negb (success r)
            then withHeader (lit "Retry-After")
                   (numberToString (ceilDiv (reset r - Date_now svc) 1000)) response
            else response in
          inr response
      end
    else inr next in
  match attempt with
  | inr response => response
  | inl _ => next     (* catch: logged, the request is let through *)
  end.

End Middleware.

(** ** [JSON.stringify] and [JSON.parse]

    The text codec of the platform on the values above.  Numbers are
    written and read as integer literals; a literal with a fraction or an
    exponent is outside the modelled values and is reported like a syntax
    error. *)

Module Json.

Definition hexDigit (n : N) : N := if n <? 10 then 48 + n else 87 + n.

(** [\uXXXX], four lowercase hexadecimal digits. *)
Definition unicodeEscape (c : N) : jsstring :=
  [92; 117; hexDigit (c / 4096 mod 16); hexDigit (c / 256 mod 16);
   hexDigit (c / 16 mod 16); hexDigit (c mod 16)].

Definition isHighSurrogate (c : N) : bool := (55296 <=? c) && (c <=? 56319).
Definition isLowSurrogate (c : N) : bool := (56320 <=? c) && (c <=? 57343).

(** One code unit that is not a surrogate, as QuoteJSONString writes it. *)
Definition escapeUnit (c : N) : jsstring :=
  if c =? 8 then [92; 98]
  else if c =? 9 then [92; 116]
  else if c =? 10 then [92; 110]
  else if c =? 12 then [92; 102]
  else if c =? 13 then [92; 114]
  else if c =? 34 then [92; 34]
  else if c =? 92 then [92; 92]
  else if c <? 32 then unicodeEscape c
  else [c].

(** The characters between the quotes: a surrogate pair is copied, a lone
    surrogate is escaped. *)
Fixpoint quoteBody (s : jsstring) : jsstring :=
  match s with
  | [] => []
  | c :: r =>
      if isHighSurrogate c then
        match r with
        | d :: r' =>
            if isLowSurrogate d then c :: d :: quoteBody r'
            else unicodeEscape c ++ quoteBody r
        | [] => unicodeEscape c
        end
      else if isLowSurrogate c then unicodeEscape c ++ quoteBody r
      else escapeUnit c ++ quoteBody r
  end.

Definition quote (s : jsstring) : jsstring := 34 :: quoteBody s ++ [34].

(** [JSON.stringify(j)], without indentation. *)
Fixpoint stringify (j : json) : jsstring :=
  match j with
  | JNull => lit "null"
  | JBool b => if b then lit "true" else lit "false"
  | JNum n => numberToString n
  | JStr s => quote s
  | JArr [] => [91; 93]
  | JArr (x :: r) =>
      91 :: stringify x ++
        (fix elements (l : list json) : jsstring :=
           match l with
           | [] => [93]
           | y :: l' => 44 :: stringify y ++ elements l'
           end) r
  | JObj [] => [123; 125]
  | JObj ((k, v) :: r) =>
      123 :: quote k ++ 58 :: stringify v ++
        (fix properties (l : list (jsstring * json)) : jsstring :=
           match l with
           | [] => [125]
           | (k', v') :: l' => 44 :: quote k' ++ 58 :: stringify v' ++ properties l'
           end) r
  end.

(** What follows the first element of an array, and the first member of
    an object (the local functions of [stringify], by name). *)
Fixpoint tailElements (l : list json) : jsstring :=
  match l with
  | [] => [93]
  | y :: l' => 44 :: stringify y ++ tailElements l'
  end.

Fixpoint tailProperties (l : list (jsstring * json)) : jsstring :=
  match l with
  | [] => [125]
  | (k', v') :: l' => 44 :: quote k' ++ 58 :: stringify v' ++ tailProperties l'
  end.

(** The code units a printed value can start with: [n], [t], [f], the
    minus sign, a digit, the quote, the bracket and the brace. *)
Definition opensValue (c : N) : Prop :=
  c = 110 \/ c = 116 \/ c = 102 \/ c = 45 \/ 48 <= c <= 57 \/ c = 34 \/ c = 91 \/ c = 123.

Definition isJsonWhiteSpace (c : N) : bool :=
  (c =? 32) || (c =? 9) || (c =? 10) || (c =? 13).

Fixpoint skipWs (s : jsstring) : jsstring :=
  match s with
  | [] => []
  | c :: r => if isJsonWhiteSpace c then skipWs r else s
  end.

Definition hexValue (c : N) : option N :=
  if (48 <=? c) && (c <=? 57) then Some (c - 48)
  else if (97 <=? c) && (c <=? 102) then Some (c - 87)
  else if (65 <=? c) && (c <=? 70) then Some (c - 55)
  else None.

(** The character a two-character escape stands for. *)
Definition unescape (e : N) : option N :=
  if e =? 34 then Some 34
  else if e =? 92 then Some 92
  else if e =? 47 then Some 47
  else if e =? 98 then Some 8
  else if e =? 102 then Some 12
  else if e =? 110 then Some 10
  else if e =? 114 then Some 13
  else if e =? 116 then Some 9
  else None.

(** One more character in front of the string that was read. *)
Definition prepend (c : N) (k : option (jsstring * jsstring)) : option (jsstring * jsstring) :=
  match k with
  | Some (str, rest) => Some (c :: str, rest)
  | None => None
  end.

(** A string literal, after its opening quote: the string and what
    follows the closing quote. *)
Fixpoint parseString (s : jsstring) : option (jsstring * jsstring) :=
  match s with
  | [] => None
  | c :: r =>
      if c =? 34 then Some ([], r)
      else if c =? 92 then
        match r with
        | [] => None
        | e :: r' =>
            if e =? 117 then
              match r' with
              | h1 :: h2 :: h3 :: h4 :: r'' =>
                  match hexValue h1, hexValue h2, hexValue h3, hexValue h4 with
                  | Some a, Some b, Some c', Some d =>
                      prepend (4096 * a + 256 * b + 16 * c' + d) (parseString r'')
                  | _, _, _, _ => None
                  end
              | _ => None
              end
            else
              match unescape e with
              | Some u => prepend u (parseString r')
              | None => None
              end
        end
      else if c <? 32 then None
      else prepend c (parseString r)
  end.

Definition isDigit (c : N) : bool := (48 <=? c) && (c <=? 57).

Definition consDigit (c : N) (d : Decimal.uint) : Decimal.uint :=
  match c with
  | 48 => D0 d | 49 => D1 d | 50 => D2 d | 51 => D3 d | 52 => D4 d
  | 53 => D5 d | 54 => D6 d | 55 => D7 d | 56 => D8 d | _ => D9 d
  end.

Fixpoint parseDigits (s : jsstring) : Decimal.uint * jsstring :=
  match s with
  | [] => (Nil, [])
  | c :: r =>
      if isDigit c
      then let '(d, rest) := parseDigits r in (consDigit c d, rest)
      else (Nil, s)
  end.

(** A fraction or an exponent follows. *)
Definition continuesNumber (s : jsstring) : bool :=
  match s with
  | [] => false
  | c :: _ => (c =? 46) || (c =? 101) || (c =? 69)
  end.

Definition startsWithDigit (s : jsstring) : bool :=
  match s with
  | [] => false
  | c :: _ => isDigit c
  end.

(** The text cannot continue an integer literal that ends before it. *)
Definition endsNumber (s : jsstring) : bool :=
  negb (startsWithDigit s) && negb (continuesNumber s).

(** The digits of an integer literal, without a superfluous leading
    zero. *)
Definition parseUnsigned (negative : bool) (s : jsstring) : option (Z * jsstring) :=
  let '(d, rest) := parseDigits s in
  match d with
  | Nil => None
  | _ =>
      if uint_eq_dec (unorm d) d then
        if continuesNumber rest then None
        else
          let n := Z.of_N (N.of_uint d) in
          Some (if negative then (- n)%Z else n, rest)
      else None
  end.

(** An integer literal: an optional minus sign, then the digits. *)
Definition parseNumber (s : jsstring) : option (Z * jsstring) :=
  match s with
  | [] => None
  | c :: r => if c =? 45 then parseUnsigned true r else parseUnsigned false s
  end.

(** The text starts with the code unit [c]. *)
Definition startsWithUnit (c : N) (s : jsstring) : bool :=
  match s with
  | [] => false
  | c' :: _ => c' =? c
  end.

(** Defining a property of an object under construction: a repeated name
    replaces the value and keeps the place. *)
Fixpoint setMember (members : list (jsstring * json)) (kv : jsstring * json)
  : list (jsstring * json) :=
  match members with
  | [] => [kv]
  | (k', v') :: rest =>
      if decide (k' = kv.1) then (k', kv.2) :: rest
      else (k', v') :: setMember rest kv
  end.

(** The recursive descent, bounded by [fuel] (the nesting depth plus the
    number of members read). *)
Fixpoint parseValue (fuel : nat) (s : jsstring) {struct fuel} : option (json * jsstring) :=
  match fuel with
  | O => None
  | S fuel' =>
      match skipWs s with
      | [] => None
      | c :: r =>
          if c =? 34 then
            '(str, rest) ← parseString r; Some (JStr str, rest)
          else if c =? 91 then
            if startsWithUnit 93 (skipWs r) then Some (JArr [], drop 1 (skipWs r))
            else '(items, rest) ← parseElements fuel' r; Some (JArr items, rest)
          else if c =? 123 then
            if startsWithUnit 125 (skipWs r) then Some (JObj [], drop 1 (skipWs r))
            else
              '(members, rest) ← parseMembers fuel' r;
              Some (JObj (foldl setMember [] members), rest)
          else if startsWith (c :: r) (lit "null") then Some (JNull, drop 4 (c :: r))
          else if startsWith (c :: r) (lit "true") then Some (JBool true, drop 4 (c :: r))
          else if startsWith (c :: r) (lit "false") then Some (JBool false, drop 5 (c :: r))
          else '(n, rest) ← parseNumber (c :: r); Some (JNum n, rest)
      end
  end
with parseElements (fuel : nat) (s : jsstring) {struct fuel} : option (list json * jsstring) :=
  match fuel with
  | O => None
  | S fuel' =>
      '(v, r) ← parseValue fuel' s;
      match skipWs r with
      | [] => None
      | c :: r' =>
          if c =? 44 then
            '(items, rest) ← parseElements fuel' r'; Some (v :: items, rest)
          else if c =? 93 then Some ([v], r')
          else None
      end
  end
with parseMembers (fuel : nat) (s : jsstring) {struct fuel}
  : option (list (jsstring * json) * jsstring) :=
  match fuel with
  | O => None
  | S fuel' =>
      match skipWs s with
      | [] => None
      | c :: r =>
          if c =? 34 then
            '(k, r1) ← parseString r;
            match skipWs r1 with
            | [] => None
            | c2 :: r2 =>
                if c2 =? 58 then
                  '(v, r3) ← parseValue fuel' r2;
                  match skipWs r3 with
                  | [] => None
                  | c3 :: r4 =>
                      if c3 =? 44 then
                        '(members, rest) ← parseMembers fuel' r4;
                        Some ((k, v) :: members, rest)
                      else if c3 =? 125 then Some ([(k, v)], r4)
                      else None
                  end
                else None
            end
          else None
      end
  end.

(** The parser reads the printed value back, whatever follows it (that
    does not continue a number), with any fuel above its length. *)
Definition readsBack (j : json) : Prop :=
  forall (fuel : nat) (rest : jsstring),
    (length (stringify j) < fuel)%nat -> endsNumber rest = true ->
    parseValue fuel (stringify j ++ rest) = Some (j, rest).

(** [JSON.parse(text)]; [None] is a thrown SyntaxError. *)
Definition parse (text : jsstring) : option json :=
  match parseValue (S (length text)) text with
  | Some (v, rest) => if nonEmpty (skipWs rest) then None else Some v
  | None => None
  end.

End Json.

(** ** The share route ([src/unnamed/part_001], lines 243-325) *)

Module Share.

(** The key-value store: for a key, the stored string and the time (in
    seconds) at which the key expires.  The client is taken to hand back
    the stored string as it is, which is what the cast [as string] of
    [GET] relies on; a client that parsed the stored text itself would
    hand [JSON.parse] a value that is not that text. *)
Abbreviation Store := (gmap jsstring (jsstring * N)).

(** [60 * 60 * 24 * 7] *)
Definition EXPIRY : N := 60 * 60 * 24 * 7.

(** [redis.set(key, value, { ex })] at time [now] *)
Definition redis_set (store : Store) (now : N) (key value : jsstring) (ex : N) : Store :=
  <[key := (value, now + ex)]> store.

(** [redis.get(key)] at time [now]; [None] is null. *)
Definition redis_get (store : Store) (now : N) (key : jsstring) : option jsstring :=
  match store !! key with
  | Some (value, expires) => if now <? expires then Some value else None
  | None => None
  end.

Inductive ShareBody :=
| ShareError (error : jsstring)
| ShareStored (id : jsvalue)             (* { success: true, id } *)
| ShareFound (conversation : json).      (* { conversation } *)

Record ShareResponse := { share_status : N; share_body : ShareBody }.

Definition conversationKey (id : jsstring) : jsstring := lit "conversation:" ++ id.

(** [outage] is the error the store call of this request rejects with, if
    it does. *)
Definition POST (store : Store) (now : N) (outage : option JsError)
  (req_json : JsError + json) : Store * ShareResponse :=
  let failed :=
    (store, {| share_status := 500;
               share_body := ShareError (lit "Failed to share conversation") |}) in
  match req_json with
  | inl _ => failed
  | inr JNull => failed     (* data.conversation on null throws *)
  | inr data =>
      match member (lit "conversation") data with
      | Some conversation =>
          if negb (truthy (Some conversation))
          then (store, {| share_status := 400;
                          share_body := ShareError (lit "No conversation data provided") |})
          else
            let id := member (lit "id") conversation in
            match outage with
            | Some _ => failed
            | None =>
                (redis_set store now (conversationKey (templateValue id))
                   (Json.stringify conversation) EXPIRY,
                 {| share_status := 200; share_body := ShareStored id |})
            end
      | None =>
          (store, {| share_status := 400;
                     share_body := ShareError (lit "No conversation data provided") |})
      end
  end.

(** [id] is [req.nextUrl.searchParams.get('id')]. *)
Definition GET (store : Store) (now : N) (outage : option JsError)
  (id : option jsstring) : ShareResponse :=
  if negb (truthyString id)
  then {| share_status := 400;
          share_body := ShareError (lit "Conversation ID is required") |}
  else
    match outage with
    | Some _ =>
        {| share_status := 500;
           share_body := ShareError (lit "Failed to retrieve conversation") |}
    | None =>
        let conversationData := redis_get store now (conversationKey (default [] id)) in
        if negb (truthyString conversationData)
        then {| share_status := 404;
                share_body := ShareError (lit "Conversation not found") |}
        else
          match Json.parse (default [] conversationData) with
          | Some conversation =>
              {| share_status := 200; share_body := ShareFound conversation |}
          | None =>
              {| share_status := 500;
                 share_body := ShareError (lit "Failed to retrieve conversation") |}
          end
    end.

(** The JSON value of a [Conversation] ([src/unnamed/part_002]); an
    optional field that is absent has no member. *)
Definition sourceJson (s : Source) : json :=
  JObj ([(lit "url", JStr (url s)); (lit "content", JStr (content s))]
        ++ match title s with
           | Some t => [(lit "title", JStr t)]
           | None => []
           end).

Definition roleName (r : Role) : jsstring :=
  match r with
  | user => lit "user"
  | ai => lit "ai"
  end.

Definition roleJson (r : Role) : json := JStr (roleName r).

Definition messageJson (m : Message) : json :=
  JObj ([(lit "role", roleJson (role m)); (lit "content", JStr (msg_content m))]
        ++ match sources m with
           | Some l => [(lit "sources", JArr (map sourceJson l))]
           | None => []
           end).

Definition conversationJson (c : Conversation) : json :=
  JObj [(lit "id", JStr (id c));
        (lit "messages", JArr (map messageJson (messages c)));
        (lit "urls", JStr (urls c))].

End Share.

(** Literals, numerals and the per-page functions are kept folded by
    simplification. *)
Arguments lit : simpl never.
Arguments numberToString : simpl never.
Arguments Chat.gotoWithRetries : simpl never.
Arguments Chat.extractContent : simpl never.
Arguments Chat.pageTitle : simpl never.
Arguments Chat.scrapeTry : simpl never.
Arguments Chat.userPrompt : simpl never.
Arguments Chat.generateAnswer : simpl never.
Arguments Chat.scrapeWebsites : simpl never.
Arguments Json.parse : simpl never.

(** ** Vocabulary of the properties *)

(** What a call returned: nothing when it threw. *)
Definition returned {A} (m : M (list A)) : list A :=
  match m with
  | (_, inr l) => l
  | (_, inl _) => []
  end.

Definition isModelCall (ev : Event) : Prop :=
  match ev with
  | EvModelCall _ _ => True
  | _ => False
  end.

Definition noModelCall (t : list Event) : Prop := Forall (fun ev => ~ isModelCall ev) t.

(** The calls of a page that navigates [n] times: every two attempts are
    separated by one pause of two seconds. *)
Fixpoint attemptsTrace (u : jsstring) (n : nat) : list Event :=
  match n with
  | O => []
  | S O => [EvGoto u]
  | S n' => EvGoto u :: EvSleep 2000 :: attemptsTrace u n'
  end.

(** The number of entries of a URL list that are the string [u]. *)
Fixpoint occurrences (u : jsstring) (urls : list json) : nat :=
  match urls with
  | [] => O
  | JStr s :: rest => if decide (s = u) then S (occurrences u rest) else occurrences u rest
  | _ :: rest => occurrences u rest
  end.

(** The number of Source records that carry the URL [u]. *)
Definition sourcesOf (u : jsstring) (l : list Source) : nat :=
  length (filter (fun s => url s = u) l).

Arguments sourcesOf : simpl never.

(** An entry the collector does not fetch: not a string, or a string that
    starts with neither [http://] nor [https://]. *)
Definition skippedEntry (j : json) : Prop :=
  match j with
  | JStr u => Chat.validScheme u = false
  | _ => True
  end.

Definition hasQueryString (body : json) : Prop :=
  exists s, member (lit "query") body = Some (JStr s).

Definition hasUrlArray (body : json) : Prop :=
  exists items, member (lit "urls") body = Some (JArr items).

(** No object of the value has two members of the same name (what holds
    of every value that came out of a parser). *)
Fixpoint uniqueNames (j : json) : Prop :=
  match j with
  | JArr items =>
      (fix all (l : list json) : Prop :=
         match l with
         | [] => True
         | x :: r => uniqueNames x /\ all r
         end) items
  | JObj members =>
      NoDup (map fst members) /\
      (fix all (l : list (jsstring * json)) : Prop :=
         match l with
         | [] => True
         | (_, x) :: r => uniqueNames x /\ all r
         end) members
  | _ => True
  end.

(** The body of a share request for a conversation:
    [JSON.stringify({ conversation })] as the client sends it, parsed. *)
Definition shareBody (c : Conversation) : json :=
  JObj [(lit "conversation", Share.conversationJson c)].

(** *** Four statements as the specification words them

    Each is compared below with what the code does. *)

(** A request whose URL list yields no source is answered 404, without a
    model call. *)
Definition every_empty_scrape_is_404 : Prop :=
  forall (w : World) (srv : Chat.Server) (body : json) (items : list json) (t : list Event),
    member (lit "urls") body = Some (JArr items) ->
    Chat.scrapeWebsites w items = (t, inr []) ->
    Chat.chat_status (Chat.POST w srv (inr body)).2 = 404
    /\ noModelCall (Chat.POST w srv (inr body)).1.

(** A URL contributes at most one Source, also when it is listed twice. *)
Definition one_source_per_distinct_url : Prop :=
  forall (w : World) (urls : list json) (u : jsstring),
    (sourcesOf u (returned (Chat.scrapeWebsites w urls)) <= 1)%nat.

(** 400 exactly when the payload lacks a query string or a URL array. *)
Definition bad_request_iff_no_string_or_no_array : Prop :=
  forall (w : World) (srv : Chat.Server) (body : json),
    Chat.chat_status (Chat.POST w srv (inr body)).2 = 400
    <-> ~ (hasQueryString body /\ hasUrlArray body).


(** ** Sample inputs *)

Module Samples.

Definition anError : JsError := {| message := lit "net::ERR_FAILED"; stack := [] |}.

Definition helloDom : Document :=
  {| sel_length := fun _ => O;
     sel_text := fun sel => if decide (sel = lit "body") then lit " Hello   world " else [] |}.

(** A page that loads at the first attempt with status 200. *)
Definition goodPage : PageScript :=
  {| newPage_result := None; setup_result := None;
     goto_result := fun _ => NavReturns (Some {| status := 200 |});
     content_result := inr helloDom; close_result := None |}.

(** A page whose navigation throws at every attempt. *)
Definition deadPage : PageScript :=
  {| newPage_result := None; setup_result := None;
     goto_result := fun _ => NavThrows anError;
     content_result := inr helloDom; close_result := None |}.

(** A page that answers 503. *)
Definition unavailablePage : PageScript :=
  {| newPage_result := None; setup_result := None;
     goto_result := fun _ => NavReturns (Some {| status := 503 |});
     content_result := inr helloDom; close_result := None |}.

Definition worldOf (p : PageScript) : World :=
  {| launch_result := None; page_script := fun _ => p;
     browser_close_result := None;
     completion_result := fun _ _ => inr (Some (lit "An answer."));
     stack_of := fun _ => [] |}.

Definition goodWorld : World := worldOf goodPage.
Definition deadWorld : World := worldOf deadPage.

Definition configured : Chat.Server :=
  {| Chat.groqClient := false; Chat.GROQ_API_KEY := Some (lit "gsk_key") |}.

Definition twiceTheSameUrl : list json :=
  [JStr (lit "https://a.example"); JStr (lit "https://a.example")].

(** [{ query: '', urls: ['not-a-url'] }] *)
Definition emptyQueryBody : json :=
  JObj [(lit "query", JStr []); (lit "urls", JArr [JStr (lit "not-a-url")])].

(** [{ urls: ['not-a-url'] }] *)
Definition noQueryBody : json :=
  JObj [(lit "urls", JArr [JStr (lit "not-a-url")])].

(** [{ query: true, urls: [] }] *)
Definition booleanQueryBody : json :=
  JObj [(lit "query", JBool true); (lit "urls", JArr [])].

(** [{ query: 'why?', urls: ['not-a-url', 'ftp://host/file'] }] *)
Definition invalidUrlsBody : json :=
  JObj [(lit "query", JStr (lit "why?"));
        (lit "urls", JArr [JStr (lit "not-a-url"); JStr (lit "ftp://host/file")])].

Definition chatRequest : Middleware.NextRequest :=
  {| Middleware.pathname := lit "/api/chat";
     Middleware.x_forwarded_for := Some (lit "203.0.113.7, 10.0.0.1");
     Middleware.x_real_ip := None |}.

Definition brokenLimiter : Middleware.Service :=
  {| Middleware.ratelimit_limit := fun _ => inl anError;
     Middleware.Date_now := 1700000000000 |}.

(** The limiter rejects; the window resets 2.5 seconds from now. *)
Definition rejectingLimiter : Middleware.Service :=
  {| Middleware.ratelimit_limit := fun _ =>
       inr {| Middleware.success := false; Middleware.limit := 5;
              Middleware.reset := 1700000002500; Middleware.remaining := 0 |};
     Middleware.Date_now := 1700000000000 |}.

Definition greeting : Message :=
  {| role := ai; msg_content := lit "Hello! How can I help you today?"; sources := None |}.

Definition answered : Message :=
  {| role := ai; msg_content := lit "See the source.";
     sources := Some [{| url := lit "https://a.example"; content := lit "Hello world";
                         title := Some (lit "A") |}] |}.

Definition sharedChat : Conversation :=
  {| id := lit "k3x9q"; messages := [greeting; answered]; urls := lit "https://a.example" |}.


End Samples.

(** ** The chat page ([src/unnamed/part_001], lines 325-599)

    The state of the [Home] component and its handlers.  A handler runs
    to its end before the next one starts; the notification flag and its
    timer are left out.  [None] is what happens when the active
    conversation is not in the map: a TypeError (a property read on
    [undefined]) or, in [handleUpdateUrls], a conversation with neither
    id nor messages, which is no [Conversation]. *)

Module Page.

(** [s.split(sep)] for a one-unit separator: at least one piece. *)
Fixpoint split (sep : N) (s : jsstring) : list jsstring :=
  match s with
  | [] => [[]]
  | c :: r =>
      if c =? sep then [] :: split sep r
      else
        match split sep r with
        | [] => [[c]]
        | piece :: pieces => (c :: piece) :: pieces
        end
  end.

(** [conversation.urls.split(',').map(url => url.trim()).filter(Boolean)] *)
Definition urlList (urls : jsstring) : list jsstring :=
  List.filter nonEmpty (map trim (split 44 urls)).

Definition greeting : Message :=
  {| role := ai; msg_content := lit "Hello! How can I help you today?"; sources := None |}.

Definition APOLOGY : jsstring :=
  lit "Sorry, an error occurred while processing your request.".

Definition freshConversation (newId : jsstring) : Conversation :=
  {| id := newId; messages := [greeting]; urls := [] |}.

Record HomeState := {
  activeConversation : jsstring;
  conversations : gmap jsstring Conversation;
  isLoading : bool
}.

(** The initial state: [initialConversationId || generateConversationId()];
    [generated] is what [generateConversationId()] would return. *)
Definition initialState (initialConversationId : option jsstring) (generated : jsstring)
  : HomeState :=
  let active :=
    if truthyString initialConversationId then default [] initialConversationId
    else generated in
  {| activeConversation := active;
     conversations := {[ active := freshConversation active ]};
     isLoading := false |}.

(** [newId] is what [generateConversationId()] returns. *)
Definition handleNewChat (newId : jsstring) (st : HomeState) : HomeState :=
  {| activeConversation := newId;
     conversations := <[newId := freshConversation newId]> (conversations st);
     isLoading := isLoading st |}.

Definition handleUpdateUrls (newUrls : jsstring) (st : HomeState) : option HomeState :=
  match conversations st !! activeConversation st with
  | Some c =>
      Some {| activeConversation := activeConversation st;
              conversations :=
                <[activeConversation st :=
                    {| id := id c; messages := messages c; urls := newUrls |}]>
                  (conversations st);
              isLoading := isLoading st |}
  | None => None
  end.

(** The updater [prev => ({ ...prev, [k]: { ...prev[k], messages:
    [...prev[k].messages, m] } })]. *)
Definition appendMessage (m : Message) (k : jsstring) (cs : gmap jsstring Conversation)
  : option (gmap jsstring Conversation) :=
  match cs !! k with
  | Some c =>
      Some (<[k := {| id := id c; messages := messages c ++ [m]; urls := urls c |}]> cs)
  | None => None
  end.

(** What the [fetch] of [/api/chat] comes to. *)
Inductive ChatReply :=
| ReplyFails                   (* fetch or response.json() rejects *)
| ReplyNotOk                   (* !response.ok *)
| ReplyOk (answer : jsstring) (sources : option (list Source)).

Definition replyMessage (reply : ChatReply) : Message :=
  match reply with
  | ReplyOk answer srcs => {| role := ai; msg_content := answer; sources := srcs |}
  | _ => {| role := ai; msg_content := APOLOGY; sources := None |}
  end.

(** [fetchChat query urls] is the outcome of the request
    [{ query, urls }]. *)
Definition handleSend (fetchChat : jsstring -> list jsstring -> ChatReply)
  (message : jsstring) (st : HomeState) : option HomeState :=
  if negb (nonEmpty (trim message)) then Some st
  else
    conversation ← conversations st !! activeConversation st;
    let urls := urlList (urls conversation) in
    cs ← appendMessage {| role := user; msg_content := message; sources := None |}
           (activeConversation st) (conversations st);
    let reply := fetchChat message urls in
    cs' ← appendMessage (replyMessage reply) (activeConversation st) cs;
    Some {| activeConversation := activeConversation st;
            conversations := cs';
            isLoading := false |}.


(** [source.title || source.url], the text of the link of a source. *)
Definition linkText (s : Source) : jsstring :=
  if truthyString (title s) then default [] (title s) else url s.

(** What the page sees of a response of the chat route. *)
Definition replyOf (r : Chat.ChatResponse) : ChatReply :=
  if (200 <=? Chat.chat_status r) && (Chat.chat_status r <=? 299) then
    match Chat.chat_body r with
    | Chat.ChatAnswer a => ReplyOk (Chat.answer a) (Some (Chat.answer_sources a))
    | _ => ReplyNotOk
    end
  else ReplyNotOk.

(** The body of the request, [{ query: message, urls: urlList }]. *)
Definition chatRequest (message : jsstring) (urlList : list jsstring) : json :=
  JObj [(lit "query", JStr message); (lit "urls", JArr (map JStr urlList))].

(** The page talking to the chat route in the world [w]. *)
Definition fetchFrom (w : World) (srv : Chat.Server) (query : jsstring) (urls : list jsstring)
  : ChatReply :=
  replyOf (Chat.POST w srv (inr (chatRequest query urls))).2.

(** The calls a user can make, and a session of them. *)
Inductive Action :=
| NewChat (newId : jsstring)
| UpdateUrls (newUrls : jsstring)
| Send (message : jsstring).

Definition step (fetchChat : jsstring -> list jsstring -> ChatReply)
  (st : HomeState) (a : Action) : option HomeState :=
  match a with
  | NewChat newId => Some (handleNewChat newId st)
  | UpdateUrls newUrls => handleUpdateUrls newUrls st
  | Send message => handleSend fetchChat message st
  end.

Fixpoint run (fetchChat : jsstring -> list jsstring -> ChatReply)
  (st : HomeState) (actions : list Action) : option HomeState :=
  match actions with
  | [] => Some st
  | a :: rest =>
      match step fetchChat st a with
      | Some st' => run fetchChat st' rest
      | None => None
      end
  end.

(** The active conversation is in the map, and every conversation is
    stored under its own id. *)
Definition consistent (st : HomeState) : Prop :=
  is_Some (conversations st !! activeConversation st)
  /\ forall k c, conversations st !! k = Some c -> id c = k.

End Page.

(** ** The shared-chat page ([src/src/app/chat/[id]/pages.tsx]) *)

Module SharedPage.

(** What [fetch(`/api/share?id=...`)] comes to: it rejects, or gives a
    response with its [ok] flag and what [response.json()] gives. *)
Inductive ShareFetch :=
| FetchRejects
| Fetched (ok : bool) (data : JsError + json).

Record SharedState := {
  isLoading : bool;
  error : option jsstring;
  conversation : jsvalue
}.

Definition initial : SharedState :=
  {| isLoading := true; error := None; conversation := None |}.

(** The effect [loadSharedConversation], run to its end. *)
Definition loadSharedConversation (f : ShareFetch) (st : SharedState) : SharedState :=
  let failed :=
    {| isLoading := false;
       error := Some (lit "Failed to load shared conversation");
       conversation := conversation st |} in
  match f with
  | Fetched true (inr JNull) => failed     (* data.conversation on null throws *)
  | Fetched true (inr data) =>
      {| isLoading := false; error := error st;
         conversation := member (lit "conversation") data |}
  | _ => failed
  end.

Inductive View :=
| Spinner
| ErrorScreen (message : jsstring)
| Blank                               (* return null *)
| HomeScreen (st : Page.HomeState).   (* <Home initialConversationId={params.id} /> *)

(** What the component renders; [generated] is what
    [generateConversationId()] would return inside [Home]. *)
Definition render (params_id generated : jsstring) (st : SharedState) : View :=
  if isLoading st then Spinner
  else if truthyString (error st) then ErrorScreen (default [] (error st))
  else if negb (truthy (conversation st)) then Blank
  else HomeScreen (Page.initialState (Some params_id) generated).

End SharedPage.

(** ** More vocabulary *)

Definition isModelCallb (ev : Event) : bool :=
  match ev with
  | EvModelCall _ _ => true
  | _ => false
  end.

(** The number of calls of the model in a trace. *)
Definition modelCalls (t : list Event) : nat := length (List.filter isModelCallb t).


(** [completion.choices[0]?.message?.content || 'No answer could be
    generated.'] *)
Definition modelAnswer (completion : option jsstring) : jsstring :=
  let text := match completion with Some c => c | None => [] end in
  if nonEmpty text then text else lit "No answer could be generated.".

(** The body of a response is an answer. *)
Definition isAnswer (b : Chat.ChatBody) : Prop :=
  match b with
  | Chat.ChatAnswer _ => True
  | _ => False
  end.



(** The entries the collector fetches: the strings of a valid scheme, in
    the order of the list. *)
Fixpoint validUrls (urls : list json) : list jsstring :=
  match urls with
  | [] => []
  | JStr u :: rest => if Chat.validScheme u then u :: validUrls rest else validUrls rest
  | _ :: rest => validUrls rest
  end.

(** Every white-space code unit of the text is a space that follows a
    code unit that is not white space; [after_space] tells that the text
    comes after a space (or starts the string). *)
Fixpoint spaced (after_space : bool) (s : jsstring) : bool :=
  match s with
  | [] => true
  | c :: r =>
      if isWhiteSpace c then (c =? 32) && negb after_space && spaced true r
      else spaced false r
  end.

(** An entry as [urlList] keeps it: not empty, no white space at either
    end, no comma. *)
Definition cleanEntry (u : jsstring) : Prop := u <> [] /\ trim u = u /\ 44 ∉ u.

Arguments Page.urlList : simpl never.
Arguments modelCalls : simpl never.

Module MoreSamples.

(** A page whose document has an article. *)
Definition articleDom : Document :=
  {| sel_length := fun sel => if decide (sel = lit "article") then 1%nat else O;
     sel_text := fun sel =>
       if decide (sel = lit "article") then lit "An  article" ++ [10] ++ lit " text "
       else if decide (sel = lit "title") then lit " A title "
       else lit "body text" |}.

(** The model call is rejected. *)
Definition mutedWorld : World :=
  {| launch_result := None; page_script := fun _ => Samples.goodPage;
     browser_close_result := None;
     completion_result := fun _ _ => inl Samples.anError;
     stack_of := fun _ => lit "Error: at POST" |}.

Definition unconfigured : Chat.Server :=
  {| Chat.groqClient := false; Chat.GROQ_API_KEY := None |}.

(** [{ query: 'why?', urls: ['https://a.example'] }] *)
Definition goodBody : json :=
  JObj [(lit "query", JStr (lit "why?")); (lit "urls", JArr [JStr (lit "https://a.example")])].

Definition allowingLimiter : Middleware.Service :=
  {| Middleware.ratelimit_limit := fun _ =>
       inr {| Middleware.success := true; Middleware.limit := 5;
              Middleware.reset := 1700000010000; Middleware.remaining := 4 |};
     Middleware.Date_now := 1700000000000 |}.

Definition blankForwarded : Middleware.NextRequest :=
  {| Middleware.pathname := lit "/api/chat";
     Middleware.x_forwarded_for := Some (lit " , 10.0.0.1");
     Middleware.x_real_ip := Some (lit "198.51.100.4") |}.

Definition homeState : Page.HomeState :=
  Page.initialState None (lit "k3x9q").

End MoreSamples.

(** * Properties *)

(** ** Strings *)

Section StringFacts.

Lemma nonEmpty_true (s : jsstring) : nonEmpty s = true <-> s <> [].
Proof. destruct s; cbn; split; congruence. Qed.

Lemma nonEmpty_false (s : jsstring) : nonEmpty s = false <-> s = [].
Proof. destruct s; cbn; split; congruence. Qed.

Lemma startsWith_cons_nonempty (s : jsstring) (c : N) (p : jsstring) :
  startsWith s (c :: p) = true -> s <> [].
Proof. destruct s; cbn; congruence. Qed.

Lemma slice0_length (n : nat) (s : jsstring) : (length (slice0 n s) <= n)%nat.
Proof. unfold slice0. rewrite length_take. lia. Qed.

End StringFacts.

Example lit_http : lit "http://" = [104; 116; 116; 112; 58; 47; 47].
Proof. reflexivity. Qed.

Example numberToString_neg : numberToString (-120) = lit "-120".
Proof. reflexivity. Qed.

Example numberToString_zero : numberToString 0 = lit "0".
Proof. reflexivity. Qed.

Example trim_example : trim (lit "  a b  ") = lit "a b".
Proof. reflexivity. Qed.

Example replaceRuns_example :
  replaceRuns isWhiteSpace false ([32; 10; 97; 9; 9; 98; 160]) = [32; 97; 32; 98; 32].
Proof. reflexivity. Qed.

Example toJsString_array :
  toJsString (JArr [JNum 1; JNull; JStr (lit "a"); JArr [JBool true; JNum (-2)]])
  = lit "1,,a,true,-2".
Proof. reflexivity. Qed.

(** ** The source collector *)

Ltac unfold_M :=
  unfold mbind, M_bind, mret, M_ret, bind, ret, throw, await, rejects, emit, tryCatch in *.

Section Collector.

Import Chat.

Variable w : World.

(** The retry loop calls [page.goto] one to three times, pausing between
    the calls, and throws only after the third call threw. *)
Lemma gotoWithRetries_cases (p : PageScript) (u : jsstring) :
  (exists n r, (1 <= n <= 3)%nat /\
     gotoWithRetries p u 3 0 = (attemptsTrace u n, inr r) /\
     goto_result p (n - 1) = NavReturns r)
  \/ (exists e, gotoWithRetries p u 3 0 = (attemptsTrace u 3, inl e) /\
        goto_result p 2 = NavThrows e /\
        forall n, (n < 3)%nat -> exists e', goto_result p n = NavThrows e').
Proof.
  cbv [gotoWithRetries]. unfold_M.
  destruct (goto_result p 0) as [e0|r0] eqn:H0.
  2:{ left. exists 1%nat, r0. cbn. rewrite H0. repeat split; lia || reflexivity. }
  destruct (goto_result p 1) as [e1|r1] eqn:H1.
  2:{ left. exists 2%nat, r1. cbn. rewrite H1. repeat split; lia || reflexivity. }
  destruct (goto_result p 2) as [e2|r2] eqn:H2.
  2:{ left. exists 3%nat, r2. cbn. rewrite H2. repeat split; lia || reflexivity. }
  right. exists e2. repeat split; try reflexivity.
  intros n Hn.
  destruct n as [|[|[|n]]]; [eauto ..|lia].
Qed.

(** A record is pushed only for a page whose document was read, with the
    cleaned text (not empty), the URL that was fetched and a title. *)
Lemma scrapeTry_Some (p : PageScript) (u : jsstring) (s : Source) :
  (scrapeTry w p u).2 = Some s ->
  exists dom, content_result p = inr dom
    /\ nonEmpty (extractContent dom) = true
    /\ s = {| url := u; content := extractContent dom;
              title := Some (pageTitle dom u) |}.
Proof.
  unfold scrapeTry, scrapeBody. unfold_M.
  destruct (setup_result p); cbn; [discriminate|].
  destruct (gotoWithRetries p u 3 0) as [t [e|[r|]]]; cbn; try discriminate.
  destruct (ok r); cbn; [|discriminate].
  destruct (content_result p) as [e|dom]; cbn; [discriminate|].
  destruct (nonEmpty (extractContent dom)) eqn:Hne; cbn; [|discriminate].
  intros [= <-]. now exists dom.
Qed.

(** The events of one page are those of its navigation. *)
Lemma scrapeTry_trace (p : PageScript) (u : jsstring) :
  (scrapeTry w p u).1 = [] \/ (scrapeTry w p u).1 = (gotoWithRetries p u 3 0).1.
Proof.
  unfold scrapeTry, scrapeBody. unfold_M.
  destruct (setup_result p); cbn; [now left|]. right.
  destruct (gotoWithRetries p u 3 0) as [t [e|[r|]]]; cbn;
    rewrite ?app_nil_r; try reflexivity.
  destruct (ok r); cbn; rewrite ?app_nil_r; try reflexivity.
  destruct (content_result p) as [e|dom]; cbn; rewrite ?app_nil_r; try reflexivity.
  destruct (nonEmpty (extractContent dom)); cbn; now rewrite ?app_nil_r.
Qed.

(** An invariant of the array under construction is kept by the loop
    when every record a valid URL can push satisfies it. *)
Lemma scrapeLoop_Forall (P : Source -> Prop) :
  (forall k u s, validScheme u = true ->
     (scrapeTry w (page_script w k) u).2 = Some s -> P s) ->
  forall urls k acc, Forall P acc -> Forall P (scrapeLoop w k urls acc).2.1.
Proof.
  intros HP l. induction l as [|j rest IH]; intros k acc Hacc; cbn; [exact Hacc|].
  destruct j; cbn; try exact Hacc.
  destruct (validScheme s) eqn:Hv; cbn; [|now apply IH].
  destruct (newPage_result (page_script w k)); cbn; [exact Hacc|].
  destruct (scrapeTry w (page_script w k) s) as [t r] eqn:Htry.
  assert (Hacc' : Forall P (pushSource acc r)).
  { destruct r as [src|]; cbn; [|exact Hacc].
    apply Forall_app; split; [exact Hacc|].
    constructor; [|constructor].
    apply (HP k s src Hv). now rewrite Htry. }
  destruct (close_result (page_script w k)); cbn; [exact Hacc'|].
  specialize (IH (S k) (pushSource acc r) Hacc').
  destruct (scrapeLoop w (S k) rest (pushSource acc r)) as [t' res]. exact IH.
Qed.

(** What the collector returns is the array the loop filled, unless the
    browser failed to launch or to close. *)
Lemma returned_scrapeWebsites (urls : list json) :
  returned (scrapeWebsites w urls) = (scrapeLoop w 0 urls []).2.1
  \/ returned (scrapeWebsites w urls) = [].
Proof.
  unfold scrapeWebsites. unfold_M.
  destruct (launch_result w); cbn; [now right|].
  destruct (scrapeLoop w 0 urls []) as [t [srcs err]]; cbn.
  destruct (browser_close_result w); cbn; [now right|now left].
Qed.

Lemma scrapeWebsites_Forall (P : Source -> Prop) :
  (forall k u s, validScheme u = true ->
     (scrapeTry w (page_script w k) u).2 = Some s -> P s) ->
  forall urls, Forall P (returned (scrapeWebsites w urls)).
Proof.
  intros HP urls.
  destruct (returned_scrapeWebsites urls) as [-> | ->]; [|constructor].
  apply scrapeLoop_Forall; [exact HP|constructor].
Qed.

(** The collector throws only when the browser fails to launch or to
    close: no error of a page leaves it. *)
Lemma scrapeWebsites_returns (urls : list json) :
  launch_result w = None -> browser_close_result w = None ->
  scrapeWebsites w urls
  = ((scrapeLoop w 0 urls []).1 ++ [EvBrowserClose], inr (scrapeLoop w 0 urls []).2.1).
Proof.
  intros Hl Hc. unfold scrapeWebsites. unfold_M. rewrite Hl, Hc. cbn.
  destruct (scrapeLoop w 0 urls []) as [t [srcs err]]; cbn.
  now rewrite !app_nil_r.
Qed.

(** No event of the collector is a model call. *)
Lemma gotoWithRetries_noModelCall (p : PageScript) (u : jsstring) :
  noModelCall (gotoWithRetries p u 3 0).1.
Proof.
  destruct (gotoWithRetries_cases p u) as [(n & r & Hn & -> & _) | (e & -> & _)]; cbn.
  - destruct n as [|[|[|[|n]]]]; cbn; try lia; repeat constructor; cbn; tauto.
  - repeat constructor; cbn; tauto.
Qed.

Lemma scrapeLoop_noModelCall (urls : list json) :
  forall k acc, noModelCall (scrapeLoop w k urls acc).1.
Proof.
  induction urls as [|j rest IH]; intros k acc; cbn; [constructor|].
  destruct j; cbn; try constructor.
  destruct (validScheme s); cbn; [|apply IH].
  destruct (newPage_result (page_script w k)); cbn; [constructor|].
  pose proof (scrapeTry_trace (page_script w k) s) as Ht.
  pose proof (gotoWithRetries_noModelCall (page_script w k) s) as Hg.
  destruct (scrapeTry w (page_script w k) s) as [t r]; cbn in Ht.
  assert (noModelCall t) as Hnt.
  { destruct Ht as [-> | ->]; [constructor|exact Hg]. }
  destruct (close_result (page_script w k)); cbn.
  - apply Forall_app; split; [exact Hnt|]. repeat constructor; cbn; tauto.
  - specialize (IH (S k) (pushSource acc r)).
    destruct (scrapeLoop w (S k) rest (pushSource acc r)) as [t' res]; cbn in *.
    apply Forall_app; split; [exact Hnt|]. constructor; [cbn; tauto|exact IH].
Qed.

Lemma scrapeWebsites_noModelCall (urls : list json) :
  noModelCall (scrapeWebsites w urls).1.
Proof.
  unfold scrapeWebsites. unfold_M.
  destruct (launch_result w); cbn; [constructor|].
  pose proof (scrapeLoop_noModelCall urls 0 []) as Hl.
  destruct (scrapeLoop w 0 urls []) as [t [srcs err]]; cbn in *.
  assert (noModelCall (t ++ [EvBrowserClose])) as Hn.
  { apply Forall_app; split; [exact Hl|]. repeat constructor; cbn; tauto. }
  destruct (browser_close_result w); cbn; rewrite ?app_nil_r; exact Hn.
Qed.

(** A list of entries that are all skipped fills nothing and opens no
    page. *)
Lemma scrapeLoop_skipped (urls : list json) :
  Forall skippedEntry urls ->
  forall k acc, (scrapeLoop w k urls acc).1 = [] /\ (scrapeLoop w k urls acc).2.1 = acc.
Proof.
  induction 1 as [|j rest Hj _ IH]; intros k acc; cbn; [now split|].
  destruct j; cbn; try now split.
  cbn in Hj. rewrite Hj. cbn. apply IH.
Qed.

End Collector.

(** ** The answer generator *)

(** C5: for the empty list of sources and any query, [generateAnswer]
    returns the fixed fallback answer (that it could not extract any
    content) with an empty list of sources, and makes no call at all: the
    trace is empty, so the model is not invoked. *)
Theorem generateAnswer_without_sources (w : World) (srv : Chat.Server) (query : jsvalue) :
  Chat.generateAnswer w srv query []
  = ([], inr {| Chat.answer :=
                  lit "I couldn't extract any content from the provided URLs. Please check the URLs and try again.";
                Chat.answer_sources := [] |})
  /\ noModelCall (Chat.generateAnswer w srv query []).1.
Proof.
  split.
  - reflexivity.
  - unfold Chat.generateAnswer. constructor.
Qed.

(** With a source, the model is called once (when the client exists). *)
Example generateAnswer_with_source :
  (Chat.generateAnswer Samples.goodWorld Samples.configured (Some (JStr (lit "why?")))
     [{| url := lit "https://a.example"; content := lit "Hello world"; title := None |}]).1
  = [EvModelCall Chat.SYSTEM_PROMPT
       (lit "Context:" ++ [LF] ++ lit "[Source: https://a.example]" ++ [LF]
        ++ lit "Hello world" ++ [LF; LF] ++ lit "Question: why?")].
Proof. vm_compute. reflexivity. Qed.

(** ** The extractor and the records of the collector *)

Lemma extractContent_length (dom : Document) :
  (length (Chat.extractContent dom) <= Chat.CONTENT_LIMIT)%nat.
Proof. unfold Chat.extractContent, Chat.cleanContent. apply slice0_length. Qed.

Lemma CONTENT_LIMIT_is_8000 : N.of_nat Chat.CONTENT_LIMIT = 8000.
Proof. vm_compute. reflexivity. Qed.

(** C6: the output of the HTML extractor has at most 8000 code units,
    whatever the document, and so has the [content] of every Source
    record [scrapeWebsites] returns. *)
Theorem content_at_most_8000 :
  (forall dom : Document, N.of_nat (length (Chat.extractContent dom)) <= 8000)
  /\ (forall (w : World) (urls : list json),
        Forall (fun s => N.of_nat (length (content s)) <= 8000)
          (returned (Chat.scrapeWebsites w urls))).
Proof.
  assert (Hdom : forall dom : Document, N.of_nat (length (Chat.extractContent dom)) <= 8000).
  { intros dom. rewrite <- CONTENT_LIMIT_is_8000.
    pose proof (extractContent_length dom). lia. }
  split; [exact Hdom|].
  intros w urls. apply scrapeWebsites_Forall.
  intros k u s _ Hs.
  destruct (scrapeTry_Some w _ _ _ Hs) as (dom & _ & _ & ->). cbn. apply Hdom.
Qed.

Lemma pageTitle_nonempty (dom : Document) (u : jsstring) : u <> [] -> Chat.pageTitle dom u <> [].
Proof.
  intros Hu. unfold Chat.pageTitle.
  destruct (nonEmpty (trim (sel_text dom (lit "title")))) eqn:Ht; [|exact Hu].
  now apply nonEmpty_true.
Qed.

Lemma validScheme_nonempty (u : jsstring) : Chat.validScheme u = true -> u <> [].
Proof.
  unfold Chat.validScheme. intros H.
  apply orb_true_iff in H as [H|H];
    now apply startsWith_cons_nonempty in H.
Qed.


(** A page with text and no title, and a page with only white space. *)
Example goodPage_source :
  Chat.scrapeTry Samples.goodWorld Samples.goodPage (lit "https://a.example")
  = ([EvGoto (lit "https://a.example")],
     Some {| url := lit "https://a.example"; content := lit "Hello world";
             title := Some (lit "https://a.example") |}).
Proof. vm_compute. reflexivity. Qed.

(** ** One record per entry of the URL list *)

Section Counting.

Import Chat.

Variable w : World.

Lemma sourcesOf_app (u : jsstring) (l1 l2 : list Source) :
  sourcesOf u (l1 ++ l2) = (sourcesOf u l1 + sourcesOf u l2)%nat.
Proof. unfold sourcesOf. now rewrite filter_app, length_app. Qed.

Lemma scrapeTry_url (p : PageScript) (u : jsstring) (s : Source) :
  (scrapeTry w p u).2 = Some s -> url s = u.
Proof. intros Hs. now destruct (scrapeTry_Some w _ _ _ Hs) as (dom & _ & _ & ->). Qed.

(** Fetching [u'] adds at most one record, and it carries [u']. *)
Lemma sourcesOf_push (u u' : jsstring) (p : PageScript) (acc : list Source) :
  (sourcesOf u (pushSource acc (scrapeTry w p u').2)
   <= sourcesOf u acc + (if decide (u' = u) then 1 else 0))%nat.
Proof.
  destruct (scrapeTry w p u').2 as [s|] eqn:Hs; cbn.
  2:{ destruct (decide (u' = u)); lia. }
  rewrite sourcesOf_app. apply scrapeTry_url in Hs.
  unfold sourcesOf at 2. rewrite filter_cons, filter_nil.
  rewrite Hs. destruct (decide (u' = u)); cbn; lia.
Qed.

Lemma scrapeLoop_count (u : jsstring) (urls : list json) :
  forall k acc,
    (sourcesOf u (scrapeLoop w k urls acc).2.1 <= sourcesOf u acc + occurrences u urls)%nat.
Proof.
  induction urls as [|j rest IH]; intros k acc; cbn; [lia|].
  destruct j; cbn; try lia.
  destruct (validScheme s) eqn:Hv; cbn.
  2:{ specialize (IH k acc). destruct (decide (s = u)); lia. }
  destruct (newPage_result (page_script w k)); cbn.
  { destruct (decide (s = u)); lia. }
  pose proof (sourcesOf_push u s (page_script w k) acc) as Hpush.
  destruct (scrapeTry w (page_script w k) s) as [t r]; cbn in Hpush.
  destruct (close_result (page_script w k)); cbn.
  { destruct (decide (s = u)); lia. }
  specialize (IH (S k) (pushSource acc r)).
  destruct (scrapeLoop w (S k) rest (pushSource acc r)) as [t' res]; cbn in *.
  destruct (decide (s = u)); lia.
Qed.

End Counting.

(** C3 (as the code has it): each entry of the URL list contributes at
    most one Source record.  For every URL [u], the records returned with
    that URL are at most as many as the entries of the list that are [u]:
    at most one when [u] is listed once. *)
Theorem sources_per_url_at_most_occurrences (w : World) (urls : list json) (u : jsstring) :
  (sourcesOf u (returned (Chat.scrapeWebsites w urls)) <= occurrences u urls)%nat.
Proof.
  destruct (returned_scrapeWebsites w urls) as [-> | ->].
  - pose proof (scrapeLoop_count w u urls 0 []) as H.
    change (sourcesOf u []) with 0%nat in H. lia.
  - change (sourcesOf u []) with 0%nat. lia.
Qed.

Example twice_listed_twice_scraped :
  Chat.scrapeWebsites Samples.goodWorld Samples.twiceTheSameUrl
  = ([EvGoto (lit "https://a.example"); EvPageClose;
      EvGoto (lit "https://a.example"); EvPageClose; EvBrowserClose],
     inr [{| url := lit "https://a.example"; content := lit "Hello world";
             title := Some (lit "https://a.example") |};
          {| url := lit "https://a.example"; content := lit "Hello world";
             title := Some (lit "https://a.example") |}]).
Proof. vm_compute. reflexivity. Qed.

(** C3 (as worded) fails: a URL listed twice, whose page loads both
    times, contributes two Source records. *)
Lemma same_url_twice_gives_two_sources :
  sourcesOf (lit "https://a.example")
    (returned (Chat.scrapeWebsites Samples.goodWorld Samples.twiceTheSameUrl)) = 2%nat
  /\ ~ one_source_per_distinct_url.
Proof.
  assert (H2 : sourcesOf (lit "https://a.example")
                 (returned (Chat.scrapeWebsites Samples.goodWorld Samples.twiceTheSameUrl))
               = 2%nat).
  { rewrite twice_listed_twice_scraped. vm_compute. reflexivity. }
  split; [exact H2|].
  intros Hclaim.
  specialize (Hclaim Samples.goodWorld Samples.twiceTheSameUrl (lit "https://a.example")).
  rewrite H2 in Hclaim. lia.
Qed.

(** ** Navigation: bounded retries, failures dropped *)

Section Navigation.

Import Chat.

Variable w : World.




End Navigation.


(** Three throws: three calls, two pauses, the URL dropped, the next one
    fetched by the same run. *)
Example dead_page_is_dropped :
  Chat.scrapeWebsites Samples.deadWorld [JStr (lit "https://a.example")]
  = ([EvGoto (lit "https://a.example"); EvSleep 2000;
      EvGoto (lit "https://a.example"); EvSleep 2000;
      EvGoto (lit "https://a.example"); EvPageClose; EvBrowserClose],
     inr []).
Proof. vm_compute. reflexivity. Qed.

Example unavailable_page_is_dropped :
  Chat.scrapeWebsites (Samples.worldOf Samples.unavailablePage)
    [JStr (lit "https://a.example")]
  = ([EvGoto (lit "https://a.example"); EvPageClose; EvBrowserClose], inr []).
Proof. vm_compute. reflexivity. Qed.

(** ** The chat handler *)

Section ChatHandler.

Import Chat.

Variable w : World.

Lemma destructure_not_null (body : json) :
  body <> JNull ->
  destructure w body = ([], inr (member (lit "query") body, member (lit "urls") body)).
Proof. destruct body; intros H; try reflexivity. congruence. Qed.

(** The validation rejects the payload: 400 and nothing else happens. *)
Lemma POST_invalid (srv srv' : Server) (body : json) :
  getGroqClient w srv = inr srv' ->
  body <> JNull ->
  truthy (member (lit "query") body) = false \/ isArray (member (lit "urls") body) = false ->
  POST w srv (inr body)
  = ([], {| chat_status := 400;
            chat_body := ChatError (lit "Invalid request. Provide a query and URLs.") |}).
Proof.
  intros Hg Hbody Hbad. unfold POST. rewrite Hg. unfold_M.
  rewrite (destructure_not_null body Hbody).
  destruct Hbad as [-> | ->]; cbn.
  - reflexivity.
  - rewrite orb_true_r. reflexivity.
Qed.

(** The validation accepts the payload: the handler scrapes, and answers
    from what the collector returns. *)
Lemma POST_valid (srv srv' : Server) (body : json) (items : list json) :
  getGroqClient w srv = inr srv' ->
  truthy (member (lit "query") body) = true ->
  member (lit "urls") body = Some (JArr items) ->
  POST w srv (inr body)
  = match scrapeWebsites w items with
    | (t, inl e) =>
        (t, {| chat_status := 500; chat_body := ChatFailure (message e) (stack e) |})
    | (t, inr []) =>
        (t, {| chat_status := 404;
               chat_body := ChatError (lit "Could not scrape any content from the provided URLs. Please check the URLs and try again.") |})
    | (t, inr (s :: l)) =>
        match generateAnswer w srv' (member (lit "query") body) (s :: l) with
        | (t', inr a) => (t ++ t', {| chat_status := 200; chat_body := ChatAnswer a |})
        | (t', inl e) =>
            (t ++ t', {| chat_status := 500;
                         chat_body := ChatFailure (message e) (stack e) |})
        end
    end.
Proof.
  intros Hg Hq Hu. unfold POST. rewrite Hg. unfold_M.
  assert (Hbody : body <> JNull) by (intros ->; discriminate).
  rewrite (destructure_not_null body Hbody), Hq, Hu. cbn.
  destruct (scrapeWebsites w items) as [t [e|[|s l]]]; cbn.
  - reflexivity.
  - now rewrite app_nil_r.
  - destruct (generateAnswer w srv' (member (lit "query") body) (s :: l)) as [t' [e|a]];
      cbn; now rewrite ?app_nil_r.
Qed.

Lemma POST_valid_status (srv srv' : Server) (body : json) (items : list json) :
  getGroqClient w srv = inr srv' ->
  truthy (member (lit "query") body) = true ->
  member (lit "urls") body = Some (JArr items) ->
  exists t' response,
    POST w srv (inr body) = ((scrapeWebsites w items).1 ++ t', response)
    /\ chat_status response <> 400.
Proof.
  intros Hg Hq Hu. rewrite (POST_valid srv srv' body items Hg Hq Hu).
  destruct (scrapeWebsites w items) as [t [e|[|s l]]]; cbn.
  - exists [], {| chat_status := 500; chat_body := ChatFailure (message e) (stack e) |}.
    now rewrite app_nil_r.
  - eexists [], _. rewrite app_nil_r. split; [reflexivity|]. cbn. lia.
  - destruct (generateAnswer w srv' (member (lit "query") body) (s :: l)) as [t' [e|a]];
      eexists t', _; (split; [reflexivity|]); cbn; lia.
Qed.

Lemma isArray_items (v : jsvalue) :
  isArray v = true -> exists items, v = Some (JArr items).
Proof. destruct v as [[]|]; cbn; try discriminate. eauto. Qed.

End ChatHandler.

(** C4 (as the code has it): the handler answers 400 exactly when the
    model key is configured, the body parses to a value other than null,
    and [query] is falsy (missing, null, false, 0 or the empty string) or
    [urls] is not an array; a payload with a truthy [query] and an array
    [urls] passes the validation and goes on to the scraping. *)
Theorem bad_request_iff_falsy_query_or_no_array
  (w : World) (srv : Chat.Server) (req_json : JsError + json) :
  (Chat.chat_status (Chat.POST w srv req_json).2 = 400
   <-> exists srv' body,
         Chat.getGroqClient w srv = inr srv' /\ req_json = inr body /\ body <> JNull
         /\ (truthy (member (lit "query") body) = false
             \/ isArray (member (lit "urls") body) = false))
  /\ (forall srv' body items,
        Chat.getGroqClient w srv = inr srv' -> req_json = inr body ->
        truthy (member (lit "query") body) = true ->
        member (lit "urls") body = Some (JArr items) ->
        exists t' response,
          Chat.POST w srv req_json = ((Chat.scrapeWebsites w items).1 ++ t', response)
          /\ Chat.chat_status response <> 400).
Proof.
  split.
  - split.
    + intros H400.
      destruct (Chat.getGroqClient w srv) as [e|srv'] eqn:Hg.
      { unfold Chat.POST in H400. rewrite Hg in H400. cbn in H400. lia. }
      destruct req_json as [e|body].
      { unfold Chat.POST in H400. rewrite Hg in H400. cbn in H400. lia. }
      assert (Hcase : body = JNull \/ body <> JNull)
        by (destruct body; (now left) || (right; discriminate)).
      destruct Hcase as [->|Hbody].
      { unfold Chat.POST in H400. rewrite Hg in H400. cbn in H400. lia. }
      exists srv', body. repeat split; try assumption.
      destruct (truthy (member (lit "query") body)) eqn:Hq; [|now left].
      destruct (isArray (member (lit "urls") body)) eqn:Ha; [|now right].
      exfalso. apply isArray_items in Ha as [items Hu].
      destruct (POST_valid_status w srv srv' body items Hg Hq Hu) as (t' & r & HP & Hr).
      rewrite HP in H400. cbn in H400. contradiction.
    + intros (srv' & body & Hg & -> & Hbody & Hbad).
      now rewrite (POST_invalid w srv srv' body Hg Hbody Hbad).
  - intros srv' body items Hg -> Hq Hu.
    now apply (POST_valid_status w srv srv').
Qed.

Example empty_query_is_rejected :
  Chat.POST Samples.goodWorld Samples.configured (inr Samples.emptyQueryBody)
  = ([], {| Chat.chat_status := 400;
            Chat.chat_body := Chat.ChatError (lit "Invalid request. Provide a query and URLs.") |}).
Proof. vm_compute. reflexivity. Qed.

Example boolean_query_is_accepted :
  Chat.POST Samples.goodWorld Samples.configured (inr Samples.booleanQueryBody)
  = ([EvBrowserClose],
     {| Chat.chat_status := 404;
        Chat.chat_body := Chat.ChatError (lit "Could not scrape any content from the provided URLs. Please check the URLs and try again.") |}).
Proof. vm_compute. reflexivity. Qed.

(** C4 (as worded) fails in both directions: the payload
    [{ query: '', urls: ['not-a-url'] }] has a query string and a URL
    array and is answered 400; the payload [{ query: true, urls: [] }] has
    no query string and is not answered 400. *)
Lemma validation_is_by_truthiness :
  (Chat.chat_status (Chat.POST Samples.goodWorld Samples.configured
                       (inr Samples.emptyQueryBody)).2 = 400
   /\ hasQueryString Samples.emptyQueryBody /\ hasUrlArray Samples.emptyQueryBody)
  /\ (Chat.chat_status (Chat.POST Samples.goodWorld Samples.configured
                          (inr Samples.booleanQueryBody)).2 = 404
      /\ ~ hasQueryString Samples.booleanQueryBody)
  /\ ~ bad_request_iff_no_string_or_no_array.
Proof.
  assert (H1 : Chat.chat_status (Chat.POST Samples.goodWorld Samples.configured
                                   (inr Samples.emptyQueryBody)).2 = 400).
  { now rewrite empty_query_is_rejected. }
  assert (H2 : hasQueryString Samples.emptyQueryBody) by (now exists []).
  assert (H3 : hasUrlArray Samples.emptyQueryBody)
    by (now exists [JStr (lit "not-a-url")]).
  split; [now repeat split|]. split; [split|].
  - now rewrite boolean_query_is_accepted.
  - intros [s Hs]. vm_compute in Hs. discriminate.
  - intros Hclaim.
    apply (Hclaim Samples.goodWorld Samples.configured Samples.emptyQueryBody); auto.
Qed.

(** C1 (as the code has it): when the request passes the configuration
    check and the validation (truthy [query], array [urls]) and the
    collector returns no source, the handler answers 404 with the
    explanatory message and its trace, which is the collector's, has no
    model call; in particular when the browser launches and closes and no
    entry of the list starts with [http://] or [https://]. *)
Theorem no_source_gives_404
  (w : World) (srv srv' : Chat.Server) (body : json) (items : list json) :
  Chat.getGroqClient w srv = inr srv' ->
  truthy (member (lit "query") body) = true ->
  member (lit "urls") body = Some (JArr items) ->
  (forall t, Chat.scrapeWebsites w items = (t, inr []) ->
     Chat.POST w srv (inr body)
     = (t, {| Chat.chat_status := 404;
              Chat.chat_body := Chat.ChatError (lit "Could not scrape any content from the provided URLs. Please check the URLs and try again.") |})
     /\ noModelCall t)
  /\ (Forall skippedEntry items ->
      launch_result w = None -> browser_close_result w = None ->
      Chat.POST w srv (inr body)
      = ([EvBrowserClose],
         {| Chat.chat_status := 404;
            Chat.chat_body := Chat.ChatError (lit "Could not scrape any content from the provided URLs. Please check the URLs and try again.") |})).
Proof.
  intros Hg Hq Hu.
  assert (Hempty : forall t, Chat.scrapeWebsites w items = (t, inr []) ->
     Chat.POST w srv (inr body)
     = (t, {| Chat.chat_status := 404;
              Chat.chat_body := Chat.ChatError (lit "Could not scrape any content from the provided URLs. Please check the URLs and try again.") |})).
  { intros t Ht. rewrite (POST_valid w srv srv' body items Hg Hq Hu). now rewrite Ht. }
  split.
  - intros t Ht. split; [now apply Hempty|].
    pose proof (scrapeWebsites_noModelCall w items) as Hn. now rewrite Ht in Hn.
  - intros Hskip Hl Hc. apply Hempty.
    rewrite (scrapeWebsites_returns w items Hl Hc).
    now destruct (scrapeLoop_skipped w items Hskip 0 []) as [-> ->].
Qed.

(** The theorem at [{ query: 'why?', urls: ['not-a-url', 'ftp://host/file'] }]. *)
Lemma no_source_gives_404_witness :
  Chat.POST Samples.goodWorld Samples.configured (inr Samples.invalidUrlsBody)
  = ([EvBrowserClose],
     {| Chat.chat_status := 404;
        Chat.chat_body := Chat.ChatError (lit "Could not scrape any content from the provided URLs. Please check the URLs and try again.") |}).
Proof.
  refine (proj2 (no_source_gives_404 Samples.goodWorld Samples.configured
                   {| Chat.groqClient := true;
                      Chat.GROQ_API_KEY := Some (lit "gsk_key") |}
                   Samples.invalidUrlsBody
                   [JStr (lit "not-a-url"); JStr (lit "ftp://host/file")]
                   _ _ _) _ _ _).
  - reflexivity.
  - reflexivity.
  - reflexivity.
  - repeat constructor.
  - reflexivity.
  - reflexivity.
Defined.

Example missing_query_is_rejected :
  Chat.POST Samples.goodWorld Samples.configured (inr Samples.noQueryBody)
  = ([], {| Chat.chat_status := 400;
            Chat.chat_body := Chat.ChatError (lit "Invalid request. Provide a query and URLs.") |}).
Proof. vm_compute. reflexivity. Qed.

(** C1 (as worded) fails: the URL list [['not-a-url']] yields no source,
    and the requests [{ urls: ['not-a-url'] }] and
    [{ query: '', urls: ['not-a-url'] }] are answered 400, not 404: the
    validation comes before the scraping. *)
Lemma invalid_urls_without_query_is_400 :
  Chat.scrapeWebsites Samples.goodWorld [JStr (lit "not-a-url")] = ([EvBrowserClose], inr [])
  /\ Chat.chat_status (Chat.POST Samples.goodWorld Samples.configured
                         (inr Samples.noQueryBody)).2 = 400
  /\ Chat.chat_status (Chat.POST Samples.goodWorld Samples.configured
                         (inr Samples.emptyQueryBody)).2 = 400
  /\ ~ every_empty_scrape_is_404.
Proof.
  assert (Hs : Chat.scrapeWebsites Samples.goodWorld [JStr (lit "not-a-url")]
               = ([EvBrowserClose], inr [])) by (vm_compute; reflexivity).
  assert (H400 : Chat.chat_status (Chat.POST Samples.goodWorld Samples.configured
                                     (inr Samples.noQueryBody)).2 = 400).
  { now rewrite missing_query_is_rejected. }
  split; [exact Hs|]. split; [exact H400|].
  split; [now rewrite empty_query_is_rejected|].
  intros Hclaim.
  destruct (Hclaim Samples.goodWorld Samples.configured Samples.noQueryBody
              [JStr (lit "not-a-url")] [EvBrowserClose] eq_refl Hs) as [H404 _].
  rewrite H400 in H404. discriminate.
Qed.

(** ** The middleware *)

Section MiddlewareFacts.

Import Middleware.

Lemma getHeader_setHeader_eq (name value : jsstring) (hs : list (jsstring * jsstring)) :
  getHeader name (setHeader name value hs) = Some value.
Proof.
  induction hs as [|[n v] rest IH]; cbn.
  - now rewrite decide_True.
  - destruct (decide (n = name)) as [->|Hne]; cbn.
    + now rewrite decide_True.
    + now rewrite decide_False.
Qed.

Lemma getHeader_setHeader_ne (name name' value : jsstring) (hs : list (jsstring * jsstring)) :
  name <> name' ->
  getHeader name (setHeader name' value hs) = getHeader name hs.
Proof.
  intros Hne. induction hs as [|[n v] rest IH]; cbn.
  - rewrite decide_False; [reflexivity|congruence].
  - destruct (decide (n = name')) as [->|Hn]; cbn.
    + rewrite !decide_False; [reflexivity|congruence..].
    + now rewrite IH.
Qed.

(** [ceilDiv a 1000] is the least integer not below [a / 1000]. *)
Lemma ceilDiv_1000 (a : Z) :
  (1000 * (ceilDiv a 1000 - 1) < a <= 1000 * ceilDiv a 1000)%Z.
Proof.
  unfold ceilDiv.
  pose proof (Z.div_mod (- a) 1000 ltac:(lia)) as Hdm.
  pose proof (Z.mod_pos_bound (- a) 1000 ltac:(lia)) as Hb.
  lia.
Qed.

(** The response to a request of the chat endpoint that the limiter
    decided on. *)
Lemma middleware_decided (svc : Service) (request : NextRequest) (r : LimitResult) :
  pathname request = lit "/api/chat" ->
  ratelimit_limit svc (getIP request ++ lit ":" ++ pathname request) = inr r ->
  middleware svc request
  = let response :=
      {| disposition := if success r then Forward else Reply 429 (lit "Too many requests");
         headers := [(lit "X-RateLimit-Limit", numberToString (limit r));
                     (lit "X-RateLimit-Remaining", numberToString (remaining r));
                     (lit "X-RateLimit-Reset", numberToString (reset r))] |} in
    if success r then response
    else withHeader (lit "Retry-After")
           (numberToString (ceilDiv (reset r - Date_now svc) 1000)) response.
Proof.
  intros Hpath Hlimit. unfold middleware.
  rewrite decide_True by exact Hpath. rewrite Hlimit.
  assert (H1 : lit "X-RateLimit-Limit" <> lit "X-RateLimit-Remaining")
    by (vm_compute; discriminate).
  assert (H2 : lit "X-RateLimit-Limit" <> lit "X-RateLimit-Reset")
    by (vm_compute; discriminate).
  assert (H3 : lit "X-RateLimit-Remaining" <> lit "X-RateLimit-Reset")
    by (vm_compute; discriminate).
  destruct (success r); unfold withHeader, next; cbn;
    rewrite !decide_False by assumption; reflexivity.
Qed.

End MiddlewareFacts.

(** C8: for a request to the chat endpoint, when the call of the
    rate-limiting service throws, the middleware forwards the request
    ([NextResponse.next()]) with no rate-limit header: it fails open. *)
Theorem limiter_error_fails_open
  (svc : Middleware.Service) (request : Middleware.NextRequest) (e : JsError) :
  Middleware.pathname request = lit "/api/chat" ->
  Middleware.ratelimit_limit svc
    (Middleware.getIP request ++ lit ":" ++ Middleware.pathname request) = inl e ->
  Middleware.middleware svc request
  = {| Middleware.disposition := Middleware.Forward; Middleware.headers := [] |}.
Proof.
  intros Hpath Hlimit. unfold Middleware.middleware.
  rewrite decide_True by exact Hpath. now rewrite Hlimit.
Qed.

Lemma limiter_error_fails_open_witness :
  Middleware.middleware Samples.brokenLimiter Samples.chatRequest
  = {| Middleware.disposition := Middleware.Forward; Middleware.headers := [] |}.
Proof.
  apply (limiter_error_fails_open Samples.brokenLimiter Samples.chatRequest Samples.anError).
  - reflexivity.
  - reflexivity.
Defined.

(** C9: for a request to [/api/chat] that the limiter rejects, the
    middleware answers 429 with the headers [X-RateLimit-Limit],
    [X-RateLimit-Remaining] and [X-RateLimit-Reset] of the decision, and a
    [Retry-After] header that is the ceiling of (reset - now) / 1000: the
    least number of whole seconds not below the time left. *)
Theorem rejection_is_429_with_retry_after
  (svc : Middleware.Service) (request : Middleware.NextRequest) (r : Middleware.LimitResult) :
  Middleware.pathname request = lit "/api/chat" ->
  Middleware.ratelimit_limit svc
    (Middleware.getIP request ++ lit ":" ++ Middleware.pathname request) = inr r ->
  Middleware.success r = false ->
  Middleware.disposition (Middleware.middleware svc request)
  = Middleware.Reply 429 (lit "Too many requests")
  /\ Middleware.getHeader (lit "X-RateLimit-Limit")
       (Middleware.headers (Middleware.middleware svc request))
     = Some (numberToString (Middleware.limit r))
  /\ Middleware.getHeader (lit "X-RateLimit-Remaining")
       (Middleware.headers (Middleware.middleware svc request))
     = Some (numberToString (Middleware.remaining r))
  /\ Middleware.getHeader (lit "X-RateLimit-Reset")
       (Middleware.headers (Middleware.middleware svc request))
     = Some (numberToString (Middleware.reset r))
  /\ exists seconds : Z,
       Middleware.getHeader (lit "Retry-After")
         (Middleware.headers (Middleware.middleware svc request))
       = Some (numberToString seconds)
       /\ (1000 * (seconds - 1) < Middleware.reset r - Middleware.Date_now svc
           <= 1000 * seconds)%Z.
Proof.
  intros Hpath Hlimit Hrejected.
  rewrite (middleware_decided svc request r Hpath Hlimit), Hrejected.
  cbv zeta. unfold Middleware.withHeader.
  cbn [Middleware.headers Middleware.disposition].
  assert (Hl : lit "X-RateLimit-Limit" <> lit "Retry-After")
    by (vm_compute; discriminate).
  assert (Hm : lit "X-RateLimit-Remaining" <> lit "Retry-After")
    by (vm_compute; discriminate).
  assert (Hs : lit "X-RateLimit-Reset" <> lit "Retry-After")
    by (vm_compute; discriminate).
  split; [reflexivity|].
  rewrite !getHeader_setHeader_ne by assumption.
  split; [now cbn; rewrite decide_True|].
  split.
  { cbn. rewrite decide_False by (vm_compute; discriminate). now rewrite decide_True. }
  split.
  { cbn. rewrite !decide_False by (vm_compute; discriminate). now rewrite decide_True. }
  exists (Middleware.ceilDiv (Middleware.reset r - Middleware.Date_now svc) 1000).
  split; [apply getHeader_setHeader_eq|apply ceilDiv_1000].
Qed.

(** The window resets 2.5 s from now: [Retry-After: 3]. *)
Lemma rejection_is_429_with_retry_after_witness :
  Middleware.middleware Samples.rejectingLimiter Samples.chatRequest
  = {| Middleware.disposition := Middleware.Reply 429 (lit "Too many requests");
       Middleware.headers :=
         [(lit "X-RateLimit-Limit", lit "5");
          (lit "X-RateLimit-Remaining", lit "0");
          (lit "X-RateLimit-Reset", lit "1700000002500");
          (lit "Retry-After", lit "3")] |}
  /\ Middleware.getHeader (lit "X-RateLimit-Limit")
       (Middleware.headers (Middleware.middleware Samples.rejectingLimiter Samples.chatRequest))
     = Some (lit "5").
Proof.
  split.
  - vm_compute. reflexivity.
  - exact (proj1 (proj2 (rejection_is_429_with_retry_after
                           Samples.rejectingLimiter Samples.chatRequest
                           {| Middleware.success := false; Middleware.limit := 5;
                              Middleware.reset := 1700000002500;
                              Middleware.remaining := 0 |}
                           eq_refl eq_refl eq_refl))).
Defined.

Example getIP_first_forwarded :
  Middleware.getIP Samples.chatRequest = lit "203.0.113.7".
Proof. vm_compute. reflexivity. Qed.

(** ** [JSON.parse] reads back what [JSON.stringify] wrote *)

Section JsonStrings.

Import Json.

Ltac bool_arith :=
  repeat match goal with
    | |- context [?a <=? ?b] => destruct (N.leb_spec a b)
    | |- context [?a <? ?b] => destruct (N.ltb_spec a b)
    | |- context [?a =? ?b] => destruct (N.eqb_spec a b)
    end; cbn; try lia; try (f_equal; lia).

Lemma hexValue_hexDigit (n : N) : n < 16 -> hexValue (hexDigit n) = Some n.
Proof. intros Hn. unfold hexValue, hexDigit. bool_arith. Qed.

Lemma hex_digits_sum (c : N) :
  c < 65536 ->
  4096 * (c / 4096 mod 16) + 256 * (c / 256 mod 16) + 16 * (c / 16 mod 16) + c mod 16 = c.
Proof. intros Hc. zify. Z.to_euclidean_division_equations. lia. Qed.

Lemma parseString_plain (c : N) (s : jsstring) :
  c <> 34 -> c <> 92 -> 32 <= c ->
  parseString (c :: s) = prepend c (parseString s).
Proof.
  intros H1 H2 H3. cbn [parseString].
  rewrite (proj2 (N.eqb_neq c 34) H1), (proj2 (N.eqb_neq c 92) H2).
  rewrite (proj2 (N.ltb_ge c 32) H3). reflexivity.
Qed.

Lemma parseString_escape (e u : N) (s : jsstring) :
  unescape e = Some u -> e <> 117 ->
  parseString (92 :: e :: s) = prepend u (parseString s).
Proof.
  intros Hu He. cbn [parseString]. cbn [N.eqb Pos.eqb].
  rewrite (proj2 (N.eqb_neq e 117) He), Hu. reflexivity.
Qed.

Lemma parseString_unicode (c : N) (s : jsstring) :
  c < 65536 ->
  parseString (unicodeEscape c ++ s) = prepend c (parseString s).
Proof.
  intros Hc. unfold unicodeEscape. cbn [app parseString]. cbn [N.eqb Pos.eqb].
  assert (forall x, x mod 16 < 16) as Hm by (intros x; apply N.mod_lt; lia).
  rewrite !hexValue_hexDigit by apply Hm.
  rewrite (hex_digits_sum c Hc). reflexivity.
Qed.

Lemma parseString_escapeUnit (c : N) (s : jsstring) :
  isHighSurrogate c = false -> isLowSurrogate c = false ->
  parseString (escapeUnit c ++ s) = prepend c (parseString s).
Proof.
  intros Hh Hl. unfold escapeUnit.
  destruct (N.eqb_spec c 8) as [->|H8]; [reflexivity|].
  destruct (N.eqb_spec c 9) as [->|H9]; [reflexivity|].
  destruct (N.eqb_spec c 10) as [->|H10]; [reflexivity|].
  destruct (N.eqb_spec c 12) as [->|H12]; [reflexivity|].
  destruct (N.eqb_spec c 13) as [->|H13]; [reflexivity|].
  destruct (N.eqb_spec c 34) as [->|H34]; [reflexivity|].
  destruct (N.eqb_spec c 92) as [->|H92]; [reflexivity|].
  destruct (N.ltb_spec c 32) as [Hlt|Hge].
  - apply parseString_unicode. lia.
  - now apply parseString_plain.
Qed.

Lemma surrogate_plain (c : N) :
  isHighSurrogate c = true \/ isLowSurrogate c = true ->
  c <> 34 /\ c <> 92 /\ 32 <= c /\ c < 65536.
Proof.
  unfold isHighSurrogate, isLowSurrogate.
  intros [H|H]; apply andb_true_iff in H as [H1 H2];
    apply N.leb_le in H1, H2; lia.
Qed.

(** A quoted string is read back, up to its closing quote. *)
Lemma parseString_quoteBody (s rest : jsstring) :
  parseString (quoteBody s ++ 34 :: rest) = Some (s, rest).
Proof.
  remember (length s) as n eqn:Hn. revert s Hn.
  induction n as [n IH] using lt_wf_ind. intros s Hn.
  destruct s as [|c r]; [reflexivity|].
  cbn [quoteBody].
  assert (IHr : parseString (quoteBody r ++ 34 :: rest) = Some (r, rest)).
  { apply (IH (length r)); [subst n; cbn; lia|reflexivity]. }
  destruct (isHighSurrogate c) eqn:Hh.
  - destruct (surrogate_plain c (or_introl Hh)) as (H1 & H2 & H3 & H4).
    destruct r as [|d r'].
    + rewrite parseString_unicode by exact H4. reflexivity.
    + destruct (isLowSurrogate d) eqn:Hd.
      * destruct (surrogate_plain d (or_intror Hd)) as (D1 & D2 & D3 & D4).
        cbn [app]. rewrite !parseString_plain by assumption.
        rewrite (IH (length r')); [reflexivity|subst n; cbn; lia|reflexivity].
      * rewrite <- app_assoc, parseString_unicode by exact H4. now rewrite IHr.
  - destruct (isLowSurrogate c) eqn:Hl.
    + destruct (surrogate_plain c (or_intror Hl)) as (H1 & H2 & H3 & H4).
      rewrite <- app_assoc, parseString_unicode by exact H4. now rewrite IHr.
    + rewrite <- app_assoc, parseString_escapeUnit by assumption. now rewrite IHr.
Qed.

End JsonStrings.

Section JsonNumbers.

Import Json.

Lemma parseDigits_digitsOfUint (u : Decimal.uint) (rest : jsstring) :
  startsWithDigit rest = false ->
  parseDigits (digitsOfUint u ++ rest) = (u, rest).
Proof.
  intros Hrest.
  induction u; cbn [digitsOfUint app]; try (cbn; now rewrite IHu).
  destruct rest as [|c r]; [reflexivity|].
  cbn in Hrest. cbn. now rewrite Hrest.
Qed.

Lemma to_uint_normal (n : N) : unorm (N.to_uint n) = N.to_uint n.
Proof.
  rewrite <- DecimalN.Unsigned.to_of. now rewrite DecimalN.Unsigned.of_to.
Qed.

Lemma to_uint_nonnil (n : N) : N.to_uint n <> Nil.
Proof. rewrite <- to_uint_normal. apply unorm_nonnil. Qed.

Lemma parseUnsigned_digits (negative : bool) (n : N) (rest : jsstring) :
  startsWithDigit rest = false -> continuesNumber rest = false ->
  parseUnsigned negative (digitsOfUint (N.to_uint n) ++ rest)
  = Some (if negative then (- Z.of_N n)%Z else Z.of_N n, rest).
Proof.
  intros Hd Hc. unfold parseUnsigned.
  rewrite (parseDigits_digitsOfUint _ _ Hd).
  pose proof (to_uint_nonnil n) as Hnil.
  pose proof (to_uint_normal n) as Hnorm.
  pose proof (DecimalN.Unsigned.of_to n) as Hof.
  destruct (N.to_uint n) eqn:Hu; try congruence;
    (destruct (uint_eq_dec _ _) as [_|Hne]; [|congruence]);
    rewrite Hc, Hof; reflexivity.
Qed.

(** The first code unit of a printed digit string is a digit. *)
Lemma digitsOfUint_head (u : Decimal.uint) :
  u <> Nil -> exists c tl, digitsOfUint u = c :: tl /\ 48 <= c <= 57.
Proof.
  destruct u; intros H; try congruence; cbn; eexists _, _; (split; [reflexivity|lia]).
Qed.

Lemma numberToString_head (n : Z) :
  exists c tl, numberToString n = c :: tl /\ (c = 45 \/ 48 <= c <= 57).
Proof.
  unfold numberToString. destruct n as [|p|p].
  - destruct (digitsOfUint_head _ (to_uint_nonnil (Z.to_N 0))) as (c & tl & -> & H). eauto.
  - destruct (digitsOfUint_head _ (to_uint_nonnil (Z.to_N (Z.pos p)))) as (c & tl & -> & H).
    eauto.
  - eauto.
Qed.

Lemma parseNumber_digit_first (s rest : jsstring) (c : N) (tl : jsstring) :
  s = c :: tl -> 48 <= c <= 57 ->
  parseNumber (s ++ rest) = parseUnsigned false (s ++ rest).
Proof.
  intros -> Hc. cbn [app]. unfold parseNumber.
  now rewrite (proj2 (N.eqb_neq c 45)) by lia.
Qed.

Lemma parseNumber_numberToString (n : Z) (rest : jsstring) :
  startsWithDigit rest = false -> continuesNumber rest = false ->
  parseNumber (numberToString n ++ rest) = Some (n, rest).
Proof.
  intros Hd Hc. unfold numberToString. destruct n as [|p|p].
  - destruct (digitsOfUint_head _ (to_uint_nonnil (Z.to_N 0))) as (c & tl & Hu & H).
    rewrite (parseNumber_digit_first _ rest c tl Hu H).
    now rewrite (parseUnsigned_digits false _ _ Hd Hc).
  - destruct (digitsOfUint_head _ (to_uint_nonnil (Z.to_N (Z.pos p)))) as (c & tl & Hu & H).
    rewrite (parseNumber_digit_first _ rest c tl Hu H).
    now rewrite (parseUnsigned_digits false _ _ Hd Hc).
  - unfold parseNumber. cbn [app]. cbn [N.eqb Pos.eqb].
    change (Pos.to_uint p) with (N.to_uint (N.pos p)).
    now rewrite (parseUnsigned_digits true _ _ Hd Hc).
Qed.

End JsonNumbers.

Section JsonValues.

Import Json.

(** Induction on a value, with the property for the items of an array
    and for the values of the members of an object. *)
Lemma json_nested_ind (P : json -> Prop) :
  P JNull -> (forall b, P (JBool b)) -> (forall n, P (JNum n)) -> (forall s, P (JStr s)) ->
  (forall l, Forall P l -> P (JArr l)) ->
  (forall ms, Forall (fun kv => P kv.2) ms -> P (JObj ms)) ->
  forall j, P j.
Proof.
  intros Hnull Hbool Hnum Hstr Harr Hobj.
  fix IH 1. intros [ | b | n | s | l | ms].
  - exact Hnull.
  - apply Hbool.
  - apply Hnum.
  - apply Hstr.
  - apply Harr. revert l. fix IHl 1. intros [|x l].
    + constructor.
    + constructor; [apply IH|apply IHl].
  - apply Hobj. revert ms. fix IHms 1. intros [|[k v] ms].
    + constructor.
    + constructor; [apply IH|apply IHms].
Qed.

Lemma uniqueNames_JArr (l : list json) :
  uniqueNames (JArr l) <-> Forall uniqueNames l.
Proof.
  induction l as [|x l IH]; cbn.
  - split; [constructor|trivial].
  - rewrite Forall_cons. cbn in IH. now rewrite IH.
Qed.

Lemma uniqueNames_JObj (ms : list (jsstring * json)) :
  uniqueNames (JObj ms) <-> NoDup (map fst ms) /\ Forall (fun kv => uniqueNames kv.2) ms.
Proof.
  cbn. apply and_iff_compat_l.
  induction ms as [|[k v] ms IH]; cbn.
  - split; [constructor|trivial].
  - rewrite Forall_cons. cbn. now rewrite IH.
Qed.

Lemma stringify_JArr_cons (x : json) (r : list json) :
  stringify (JArr (x :: r)) = 91 :: stringify x ++ tailElements r.
Proof.
  reflexivity.
Qed.

Lemma stringify_JObj_cons (k : jsstring) (v : json) (r : list (jsstring * json)) :
  stringify (JObj ((k, v) :: r)) = 123 :: quote k ++ 58 :: stringify v ++ tailProperties r.
Proof.
  reflexivity.
Qed.

Lemma stringify_head (j : json) :
  exists c tl, stringify j = c :: tl /\ opensValue c.
Proof.
  unfold opensValue.
  destruct j as [ | [|] | n | s | [|x l] | [|[k v] ms]];
    try (eexists _, _; split; [reflexivity|]; lia);
    try (vm_compute; eexists _, _; split; [reflexivity|]; lia).
  destruct (numberToString_head n) as (c & tl & Hn & Hc).
  exists c, tl. split; [exact Hn|lia].
Qed.


Ltac unit_tests :=
  repeat match goal with
    | |- context [?a =? ?b] => destruct (N.eqb_spec a b); [lia|]
    | |- context [?a <=? ?b] => destruct (N.leb_spec a b)
    end; cbn; try lia; try reflexivity.

Lemma skipWs_opensValue (c : N) (tl : jsstring) :
  opensValue c -> skipWs (c :: tl) = c :: tl.
Proof.
  unfold opensValue. intros Hc. cbn. unfold isJsonWhiteSpace.
  destruct (N.eqb_spec c 32); [lia|]. destruct (N.eqb_spec c 9); [lia|].
  destruct (N.eqb_spec c 10); [lia|]. destruct (N.eqb_spec c 13); [lia|].
  reflexivity.
Qed.

Lemma skipWs_stringify (j : json) (rest : jsstring) :
  skipWs (stringify j ++ rest) = stringify j ++ rest.
Proof.
  destruct (stringify_head j) as (c & tl & -> & Hc).
  now apply skipWs_opensValue.
Qed.

Lemma startsWithUnit_stringify (c : N) (j : json) (rest : jsstring) :
  c = 93 \/ c = 125 -> startsWithUnit c (stringify j ++ rest) = false.
Proof.
  destruct (stringify_head j) as (c' & tl & -> & Hc). unfold opensValue in Hc.
  intros H. cbn. apply N.eqb_neq. lia.
Qed.

End JsonValues.

Section JsonRoundTrip.

Import Json.

Lemma startsWith_head_ne (c p : N) (tl ps : jsstring) :
  c <> p -> startsWith (c :: tl) (p :: ps) = false.
Proof. intros H. cbn. now rewrite (proj2 (N.eqb_neq c p) H). Qed.

Lemma parseValue_number (fuel : nat) (c : N) (tl : jsstring) :
  c = 45 \/ 48 <= c <= 57 ->
  parseValue (S fuel) (c :: tl)
  = match parseNumber (c :: tl) with
    | Some (n, rest) => Some (JNum n, rest)
    | None => None
    end.
Proof.
  intros Hc. cbn [parseValue].
  rewrite skipWs_opensValue by (unfold opensValue; lia).
  rewrite (proj2 (N.eqb_neq c 34)) by lia.
  rewrite (proj2 (N.eqb_neq c 91)) by lia.
  rewrite (proj2 (N.eqb_neq c 123)) by lia.
  change (lit "null") with (110 :: [117; 108; 108]).
  change (lit "true") with (116 :: [114; 117; 101]).
  change (lit "false") with (102 :: [97; 108; 115; 101]).
  rewrite !startsWith_head_ne by lia.
  destruct (parseNumber (c :: tl)) as [[n rest]|]; reflexivity.
Qed.

Lemma readsBack_JNull : readsBack JNull.
Proof. intros [|fuel] rest Hf _; [cbn in Hf; lia|]. reflexivity. Qed.

Lemma readsBack_JBool (b : bool) : readsBack (JBool b).
Proof. intros [|fuel] rest Hf _; [cbn in Hf; lia|]. destruct b; reflexivity. Qed.

Lemma readsBack_JNum (n : Z) : readsBack (JNum n).
Proof.
  intros [|fuel] rest Hf Hrest; [cbn in Hf; lia|].
  apply andb_true_iff in Hrest as [Hd Hc].
  apply negb_true_iff in Hd, Hc.
  pose proof (parseNumber_numberToString n rest Hd Hc) as Hparse.
  cbn [stringify] in *.
  destruct (numberToString_head n) as (c & tl & Hn & Hhead).
  rewrite Hn in *. cbn [app] in *.
  now rewrite (parseValue_number fuel c (tl ++ rest) Hhead), Hparse.
Qed.

Lemma readsBack_JStr (s : jsstring) : readsBack (JStr s).
Proof.
  intros [|fuel] rest Hf _; [cbn in Hf; lia|].
  cbn [stringify]. unfold quote. cbn [app parseValue skipWs].
  change (isJsonWhiteSpace 34) with false. cbn [N.eqb Pos.eqb].
  rewrite <- app_assoc. cbn [app].
  now rewrite parseString_quoteBody.
Qed.

Lemma endsNumber_tailElements (r : list json) (rest : jsstring) :
  endsNumber (tailElements r ++ rest) = true.
Proof. destruct r; reflexivity. Qed.

Lemma endsNumber_tailProperties (r : list (jsstring * json)) (rest : jsstring) :
  endsNumber (tailProperties r ++ rest) = true.
Proof. destruct r as [|[k v] r]; reflexivity. Qed.

Lemma tailElements_length (r : list json) : (1 <= length (tailElements r))%nat.
Proof. destruct r; cbn; lia. Qed.

Lemma tailProperties_length (r : list (jsstring * json)) :
  (1 <= length (tailProperties r))%nat.
Proof. destruct r as [|[k v] r]; cbn; lia. Qed.

(** The items of an array, after its bracket. *)
Lemma parseElements_items (r : list json) :
  Forall readsBack r ->
  forall x, readsBack x ->
  forall fuel rest,
    (length (stringify x) + length (tailElements r) < fuel)%nat ->
    parseElements fuel (stringify x ++ tailElements r ++ rest) = Some (x :: r, rest).
Proof.
  induction 1 as [|y r Hy Hr IH]; intros x Hx [|fuel] rest Hf; try lia.
  - cbn [parseElements tailElements].
    rewrite Hx; [|cbn in Hf; lia|reflexivity]. reflexivity.
  - cbn [parseElements tailElements].
    pose proof (tailElements_length r) as Hlen.
    cbn [tailElements length] in Hf. rewrite length_app in Hf.
    rewrite Hx; [|lia|reflexivity].
    cbn. rewrite <- app_assoc.
    rewrite (IH y Hy fuel rest); [reflexivity|lia].
Qed.


Lemma quote_app (k rest : jsstring) :
  quote k ++ rest = 34 :: quoteBody k ++ 34 :: rest.
Proof. unfold quote. cbn [app]. now rewrite <- app_assoc. Qed.

(** The members of an object, after its brace. *)
Lemma parseMembers_members (r : list (jsstring * json)) :
  Forall (fun kv => readsBack kv.2) r ->
  forall k v, readsBack v ->
  forall fuel rest,
    (length (quote k) + 1 + length (stringify v) + length (tailProperties r) < fuel)%nat ->
    parseMembers fuel (quote k ++ 58 :: stringify v ++ tailProperties r ++ rest)
    = Some ((k, v) :: r, rest).
Proof.
  induction 1 as [|[k' v'] r Hv' Hr IH]; intros k v Hv [|fuel] rest Hf; try lia.
  - cbn [parseMembers tailProperties]. rewrite quote_app. cbn [skipWs].
    change (isJsonWhiteSpace 34) with false. cbn [N.eqb Pos.eqb].
    rewrite parseString_quoteBody.
    cbn. rewrite Hv; [|cbn in Hf; lia|reflexivity]. reflexivity.
  - cbn [parseMembers tailProperties]. rewrite quote_app. cbn [skipWs].
    change (isJsonWhiteSpace 34) with false. cbn [N.eqb Pos.eqb].
    rewrite parseString_quoteBody.
    pose proof (tailProperties_length r) as Hlen.
    cbn [tailProperties length] in Hf. rewrite !length_app in Hf.
    cbn [length] in Hf. rewrite !length_app in Hf. cbn in Hv'.
    cbn [mbind option_bind skipWs].
    change (isJsonWhiteSpace 58) with false. cbn [N.eqb Pos.eqb].
    rewrite Hv; [|lia|reflexivity].
    cbn [mbind option_bind app skipWs].
    change (isJsonWhiteSpace 44) with false. cbn [N.eqb Pos.eqb].
    rewrite <- !app_assoc. cbn [app]. rewrite <- !app_assoc.
    rewrite (IH k' v' Hv' fuel rest); [reflexivity|lia].
Qed.

Lemma setMember_fresh (acc : list (jsstring * json)) (kv : jsstring * json) :
  kv.1 ∉ map fst acc -> setMember acc kv = acc ++ [kv].
Proof.
  induction acc as [|[k' v'] acc IH]; cbn; intros Hfresh; [reflexivity|].
  apply not_elem_of_cons in Hfresh as [Hne Hfresh].
  rewrite decide_False by congruence. now rewrite IH.
Qed.

(** Members of distinct names are defined in their order. *)
Lemma foldl_setMember (ms acc : list (jsstring * json)) :
  NoDup (map fst (acc ++ ms)) -> foldl setMember acc ms = acc ++ ms.
Proof.
  revert acc. induction ms as [|kv ms IH]; intros acc Hnd; cbn.
  - now rewrite app_nil_r.
  - rewrite setMember_fresh.
    + rewrite IH; rewrite <- app_assoc; [reflexivity|exact Hnd].
    + rewrite map_app in Hnd. apply NoDup_app in Hnd as (_ & Hdisj & _).
      intros Hin. apply (Hdisj _ Hin). cbn. apply elem_of_cons. now left.
Qed.

(** Every value whose objects have distinct member names is read back
    from its text. *)
Lemma readsBack_uniqueNames (j : json) : uniqueNames j -> readsBack j.
Proof.
  induction j as [ | b | n | s | l IH | ms IH] using json_nested_ind; intros Hu.
  - apply readsBack_JNull.
  - apply readsBack_JBool.
  - apply readsBack_JNum.
  - apply readsBack_JStr.
  - apply uniqueNames_JArr in Hu.
    assert (Hl : Forall readsBack l).
    { apply Forall_forall. intros x Hx.
      rewrite Forall_forall in IH, Hu. auto. }
    destruct l as [|x r].
    + intros [|fuel] rest Hf _; [cbn in Hf; lia|]. reflexivity.
    + apply Forall_cons in Hl as [Hx Hr].
      intros [|fuel] rest Hf _; [cbn in Hf; lia|].
      rewrite stringify_JArr_cons in *. cbn [app parseValue skipWs].
      change (isJsonWhiteSpace 91) with false. cbn [N.eqb Pos.eqb].
      cbn [length] in Hf. rewrite length_app in Hf.
      rewrite <- app_assoc, skipWs_stringify, startsWithUnit_stringify by now left.
      rewrite (parseElements_items r Hr x Hx fuel rest) by lia. reflexivity.
  - apply uniqueNames_JObj in Hu as [Hnd Hu].
    assert (Hms : Forall (fun kv => readsBack kv.2) ms).
    { apply Forall_forall. intros kv Hkv.
      rewrite Forall_forall in IH, Hu. auto. }
    destruct ms as [|[k v] r].
    + intros [|fuel] rest Hf _; [cbn in Hf; lia|]. reflexivity.
    + apply Forall_cons in Hms as [Hv Hr]. cbn in Hv.
      intros [|fuel] rest Hf _; [cbn in Hf; lia|].
      rewrite stringify_JObj_cons in *. cbn [app parseValue skipWs].
      change (isJsonWhiteSpace 123) with false. cbn [N.eqb Pos.eqb].
      cbn [length] in Hf. rewrite !length_app in Hf. cbn [length] in Hf.
      rewrite !length_app in Hf.
      rewrite <- !app_assoc. cbn [app]. rewrite <- !app_assoc.
      assert (Hopen : startsWithUnit 125
                (skipWs (quote k ++ 58 :: stringify v ++ tailProperties r ++ rest))
              = false) by (rewrite quote_app; reflexivity).
      rewrite Hopen.
      rewrite (parseMembers_members r Hr k v Hv fuel rest) by lia.
      cbn [mbind option_bind]. now rewrite (foldl_setMember ((k, v) :: r) []).
Qed.

(** [JSON.parse(JSON.stringify(j))] is [j]. *)
Lemma parse_stringify (j : json) : uniqueNames j -> parse (stringify j) = Some j.
Proof.
  intros Hu. unfold parse.
  rewrite <- (app_nil_r (stringify j)) at 2.
  rewrite (readsBack_uniqueNames j Hu); [reflexivity|lia|reflexivity].
Qed.


End JsonRoundTrip.

(** ** The share route *)

Section ShareFacts.

Import Share.












End ShareFacts.




(** * Further properties of the code *)

(** ** Trimming and splitting *)

Section TrimFacts.

Lemma trimStart_head (s : jsstring) (c : N) (r : jsstring) :
  trimStart s = c :: r -> isWhiteSpace c = false.
Proof.
  induction s as [|x s IH]; cbn; [discriminate|].
  destruct (isWhiteSpace x) eqn:Hx; [exact IH|].
  intros [= <- <-]. exact Hx.
Qed.

Lemma trimStart_suffix (s : jsstring) :
  exists h, s = h ++ trimStart s /\ Forall (fun x => isWhiteSpace x = true) h.
Proof.
  induction s as [|x s (h & Hs & Hh)]; cbn.
  - exists []. split; [reflexivity|constructor].
  - destruct (isWhiteSpace x) eqn:Hx.
    + exists (x :: h). split; [cbn; now f_equal|now constructor].
    + exists []. split; [reflexivity|constructor].
Qed.

Lemma trimStart_fixed (s : jsstring) :
  (forall c r, s = c :: r -> isWhiteSpace c = false) -> trimStart s = s.
Proof.
  destruct s as [|c r]; [reflexivity|]. intros H. cbn.
  now rewrite (H c r eq_refl).
Qed.

Lemma trimStart_all_white (s : jsstring) :
  Forall (fun x => isWhiteSpace x = true) s -> trimStart s = [].
Proof. induction 1 as [|x s Hx _ IH]; cbn; [reflexivity|]. now rewrite Hx. Qed.

Lemma trimEnd_prefix (s : jsstring) :
  exists t, s = trimEnd s ++ t /\ Forall (fun x => isWhiteSpace x = true) t.
Proof.
  unfold trimEnd. destruct (trimStart_suffix (rev s)) as (h & Hs & Hh).
  exists (rev h). split.
  - rewrite <- rev_app_distr, <- Hs. now rewrite rev_involutive.
  - apply Forall_forall. intros x Hx. rewrite Forall_forall in Hh.
    apply Hh. apply list_elem_of_In. apply list_elem_of_In in Hx. now apply in_rev.
Qed.

Lemma trimEnd_last (s r : jsstring) (c : N) :
  trimEnd s = r ++ [c] -> isWhiteSpace c = false.
Proof.
  unfold trimEnd. intros H.
  apply (f_equal (@rev N)) in H. rewrite rev_involutive, rev_app_distr in H.
  cbn in H. now apply trimStart_head in H.
Qed.

Lemma trimEnd_fixed (s : jsstring) :
  (forall r c, s = r ++ [c] -> isWhiteSpace c = false) -> trimEnd s = s.
Proof.
  intros H. unfold trimEnd. rewrite trimStart_fixed; [apply rev_involutive|].
  intros c r Hrev. apply (H (rev r) c).
  rewrite <- (rev_involutive s), Hrev. reflexivity.
Qed.

(** What [trim] keeps is a piece of the string, between white space. *)
Lemma trim_infix (s : jsstring) :
  exists h t, s = h ++ trim s ++ t
    /\ Forall (fun x => isWhiteSpace x = true) h
    /\ Forall (fun x => isWhiteSpace x = true) t.
Proof.
  unfold trim.
  destruct (trimStart_suffix s) as (h & Hs & Hh).
  destruct (trimEnd_prefix (trimStart s)) as (t & Ht & Hwt).
  exists h, t. repeat split; try assumption.
  now rewrite <- Ht.
Qed.

Lemma trim_head (s : jsstring) (c : N) (r : jsstring) :
  trim s = c :: r -> isWhiteSpace c = false.
Proof.
  unfold trim. intros H.
  destruct (trimEnd_prefix (trimStart s)) as (t & Ht & _).
  rewrite H in Ht. cbn in Ht. now apply trimStart_head in Ht.
Qed.

Lemma trim_last (s r : jsstring) (c : N) :
  trim s = r ++ [c] -> isWhiteSpace c = false.
Proof. unfold trim. apply trimEnd_last. Qed.

Lemma trim_elem (s : jsstring) (x : N) : x ∈ trim s -> x ∈ s.
Proof.
  intros Hx. destruct (trim_infix s) as (h & t & Hs & _).
  rewrite Hs. rewrite !elem_of_app. auto.
Qed.

Lemma trim_trim (s : jsstring) : trim (trim s) = trim s.
Proof.
  unfold trim at 1.
  rewrite (trimStart_fixed (trim s)) by apply trim_head.
  apply trimEnd_fixed. apply trim_last.
Qed.

Lemma trim_all_white (s : jsstring) :
  Forall (fun x => isWhiteSpace x = true) s -> trim s = [].
Proof. intros H. unfold trim. now rewrite (trimStart_all_white s H). Qed.

Lemma splitHead_no_separator (sep : N) (s : jsstring) : sep ∉ splitHead sep s.
Proof.
  induction s as [|c r IH]; cbn; [apply not_elem_of_nil|].
  destruct (N.eqb_spec c sep) as [->|Hne]; [apply not_elem_of_nil|].
  apply not_elem_of_cons. split; [congruence|exact IH].
Qed.

End TrimFacts.

(** ** The middleware, beyond rejection *)

Lemma limiter_failure (svc : Middleware.Service) (request : Middleware.NextRequest)
  (e : JsError) :
  Middleware.pathname request = lit "/api/chat" ->
  Middleware.ratelimit_limit svc
    (Middleware.getIP request ++ lit ":" ++ Middleware.pathname request) = inl e ->
  Middleware.middleware svc request
  = {| Middleware.disposition := Middleware.Forward; Middleware.headers := [] |}.
Proof.
  intros Hpath Hlimit. unfold Middleware.middleware.
  rewrite decide_True by exact Hpath. now rewrite Hlimit.
Qed.

(** X1: the middleware refuses a request only when the request is for
    [/api/chat] and the limiter answered with [success = false]; the
    refusal is then the 429 reply.  Every other path is forwarded without
    a header, whatever the limiter would say. *)
Theorem refusal_only_by_the_limiter
  (svc : Middleware.Service) (request : Middleware.NextRequest) :
  (Middleware.disposition (Middleware.middleware svc request) <> Middleware.Forward
   <-> Middleware.pathname request = lit "/api/chat"
       /\ exists r,
            Middleware.ratelimit_limit svc
              (Middleware.getIP request ++ lit ":" ++ Middleware.pathname request) = inr r
            /\ Middleware.success r = false)
  /\ (Middleware.disposition (Middleware.middleware svc request) = Middleware.Forward
      \/ Middleware.disposition (Middleware.middleware svc request)
         = Middleware.Reply 429 (lit "Too many requests"))
  /\ (Middleware.pathname request <> lit "/api/chat" ->
      Middleware.middleware svc request
      = {| Middleware.disposition := Middleware.Forward; Middleware.headers := [] |}).
Proof.
  destruct (decide (Middleware.pathname request = lit "/api/chat")) as [Hpath|Hpath].
  - destruct (Middleware.ratelimit_limit svc
                (Middleware.getIP request ++ lit ":" ++ Middleware.pathname request))
      as [e|r] eqn:Hlimit.
    + rewrite (limiter_failure svc request e Hpath Hlimit).
      split; [|split].
      * split; [intros H; now contradiction H|].
        intros (_ & r & Hr & _). discriminate.
      * now left.
      * intros H. contradiction.
    + rewrite (middleware_decided svc request r Hpath Hlimit).
      destruct (Middleware.success r) eqn:Hs; cbn.
      * split; [|split].
        -- split; [intros H; now contradiction H|].
           intros (_ & r' & [= <-] & Hr'). congruence.
        -- now left.
        -- intros H. contradiction.
      * split; [|split].
        -- split; [|discriminate]. intros _. split; [exact Hpath|]. now exists r.
        -- now right.
        -- intros H. contradiction.
  - assert (Hnext : Middleware.middleware svc request
                    = {| Middleware.disposition := Middleware.Forward;
                         Middleware.headers := [] |}).
    { unfold Middleware.middleware. now rewrite decide_False by exact Hpath. }
    rewrite Hnext. cbn. split; [|split].
    + split; [intros H; now contradiction H|]. intros [H _]. contradiction.
    + now left.
    + reflexivity.
Qed.

(** X2: a request for [/api/chat] that the limiter allows is forwarded
    with exactly the three headers of the decision, and carries no
    [Retry-After]. *)
Theorem allowed_request_carries_the_limits
  (svc : Middleware.Service) (request : Middleware.NextRequest) (r : Middleware.LimitResult) :
  Middleware.pathname request = lit "/api/chat" ->
  Middleware.ratelimit_limit svc
    (Middleware.getIP request ++ lit ":" ++ Middleware.pathname request) = inr r ->
  Middleware.success r = true ->
  Middleware.middleware svc request
  = {| Middleware.disposition := Middleware.Forward;
       Middleware.headers :=
         [(lit "X-RateLimit-Limit", numberToString (Middleware.limit r));
          (lit "X-RateLimit-Remaining", numberToString (Middleware.remaining r));
          (lit "X-RateLimit-Reset", numberToString (Middleware.reset r))] |}
  /\ Middleware.getHeader (lit "Retry-After")
       (Middleware.headers (Middleware.middleware svc request)) = None.
Proof.
  intros Hpath Hlimit Hallowed.
  rewrite (middleware_decided svc request r Hpath Hlimit), Hallowed. cbv zeta.
  split; [reflexivity|].
  cbn [Middleware.headers Middleware.getHeader].
  rewrite !decide_False by (vm_compute; discriminate). reflexivity.
Qed.

Lemma allowed_request_carries_the_limits_witness :
  Middleware.middleware MoreSamples.allowingLimiter Samples.chatRequest
  = {| Middleware.disposition := Middleware.Forward;
       Middleware.headers :=
         [(lit "X-RateLimit-Limit", lit "5");
          (lit "X-RateLimit-Remaining", lit "4");
          (lit "X-RateLimit-Reset", lit "1700000010000")] |}.
Proof.
  exact (proj1 (allowed_request_carries_the_limits
                  MoreSamples.allowingLimiter Samples.chatRequest
                  {| Middleware.success := true; Middleware.limit := 5;
                     Middleware.reset := 1700000010000; Middleware.remaining := 4 |}
                  eq_refl eq_refl eq_refl)).
Defined.

(** X3: when [x-forwarded-for] is present and not empty, the client IP is
    its first comma-separated entry, trimmed: it holds no comma and
    neither starts nor ends with white space; [x-real-ip] is not looked
    at, so the IP is the empty string when that first entry is blank. *)
Theorem getIP_is_the_first_forwarded_entry
  (request : Middleware.NextRequest) (forwardedFor : jsstring) :
  Middleware.x_forwarded_for request = Some forwardedFor ->
  forwardedFor <> [] ->
  Middleware.getIP request = trim (splitHead 44 forwardedFor)
  /\ (44 ∉ Middleware.getIP request)
  /\ (forall c r, Middleware.getIP request = c :: r -> isWhiteSpace c = false)
  /\ (forall r c, Middleware.getIP request = r ++ [c] -> isWhiteSpace c = false)
  /\ (Forall (fun x => isWhiteSpace x = true) (splitHead 44 forwardedFor) ->
      Middleware.getIP request = []).
Proof.
  intros Hxff Hne.
  assert (Hip : Middleware.getIP request = trim (splitHead 44 forwardedFor)).
  { unfold Middleware.getIP. rewrite Hxff. cbn [truthyString default].
    now rewrite (proj2 (nonEmpty_true forwardedFor) Hne). }
  rewrite Hip. split; [reflexivity|]. split; [|split; [|split]].
  - intros Hin. apply trim_elem in Hin. now apply splitHead_no_separator in Hin.
  - apply trim_head.
  - apply trim_last.
  - apply trim_all_white.
Qed.

Lemma getIP_is_the_first_forwarded_entry_witness :
  Middleware.getIP MoreSamples.blankForwarded = [].
Proof.
  refine (proj2 (proj2 (proj2 (proj2
    (getIP_is_the_first_forwarded_entry MoreSamples.blankForwarded (lit " , 10.0.0.1") _ _)))) _).
  - reflexivity.
  - discriminate.
  - vm_compute. repeat constructor.
Defined.

(** X4: without a usable [x-forwarded-for] (absent or empty), the client
    IP is [x-real-ip] when that is present and not empty, and
    [127.0.0.1] otherwise: never the empty string. *)
Theorem getIP_without_forwarded_header (request : Middleware.NextRequest) :
  truthyString (Middleware.x_forwarded_for request) = false ->
  Middleware.getIP request <> []
  /\ (forall realIp, Middleware.x_real_ip request = Some realIp -> realIp <> [] ->
        Middleware.getIP request = realIp)
  /\ (truthyString (Middleware.x_real_ip request) = false ->
        Middleware.getIP request = lit "127.0.0.1").
Proof.
  intros Hxff. unfold Middleware.getIP. rewrite Hxff.
  destruct (Middleware.x_real_ip request) as [[|c ip]|]; cbn.
  - split; [vm_compute; discriminate|]. split; [|reflexivity].
    intros realIp [= <-] H. now contradiction H.
  - split; [discriminate|]. split; [|discriminate].
    now intros realIp [= <-] _.
  - split; [vm_compute; discriminate|]. split; [discriminate|reflexivity].
Qed.

Lemma getIP_without_forwarded_header_witness :
  Middleware.getIP {| Middleware.pathname := lit "/api/chat";
                      Middleware.x_forwarded_for := Some [];
                      Middleware.x_real_ip := None |}
  = lit "127.0.0.1".
Proof.
  refine (proj2 (proj2 (getIP_without_forwarded_header _ _)) _); reflexivity.
Defined.

(** ** The chat handler, beyond the empty scrape *)

Section ChatMore.

Import Chat.

Variable w : World.

Lemma modelCalls_app (t t' : list Event) :
  modelCalls (t ++ t') = (modelCalls t + modelCalls t')%nat.
Proof. unfold modelCalls. now rewrite List.filter_app, length_app. Qed.

Lemma modelCalls_none (t : list Event) : noModelCall t -> modelCalls t = 0%nat.
Proof.
  unfold modelCalls. induction 1 as [|ev t Hev _ IH]; [reflexivity|].
  cbn. destruct ev; cbn in *; try exact IH. tauto.
Qed.

(** Once the client exists it is reused, whatever the environment. *)
Lemma getGroqClient_cached (srv srv' : Server) :
  getGroqClient w srv = inr srv' -> getGroqClient w srv' = inr srv'.
Proof.
  unfold getGroqClient. destruct (groqClient srv) eqn:Hc.
  - intros [= <-]. now rewrite Hc.
  - destruct (truthyString (GROQ_API_KEY srv)); cbn; [|discriminate].
    now intros [= <-].
Qed.

Lemma modelAnswer_nonempty (completion : option jsstring) : modelAnswer completion <> [].
Proof.
  unfold modelAnswer. destruct completion as [[|c r]|]; cbn; try discriminate;
    vm_compute; discriminate.
Qed.

(** [generateAnswer] on a list that is not empty, with the client at
    hand. *)
Lemma generateAnswer_cons (srv srv' : Server) (query : jsvalue) (s : Source) (l : list Source) :
  getGroqClient w srv = inr srv' ->
  generateAnswer w srv query (s :: l)
  = ([EvModelCall SYSTEM_PROMPT (userPrompt query (s :: l))],
     match completion_result w SYSTEM_PROMPT (userPrompt query (s :: l)) with
     | inl _ => inl (Error w (lit "Failed to generate AI response"))
     | inr completion =>
         inr {| answer := modelAnswer completion; answer_sources := s :: l |}
     end).
Proof.
  intros Hg. unfold generateAnswer. unfold_M. rewrite Hg.
  destruct (completion_result w SYSTEM_PROMPT (userPrompt query (s :: l))) as [e|c];
    reflexivity.
Qed.

Lemma generateAnswer_no_client (srv : Server) (e : JsError) (query : jsvalue)
  (s : Source) (l : list Source) :
  getGroqClient w srv = inl e ->
  generateAnswer w srv query (s :: l)
  = ([], inl (Error w (lit "Failed to generate AI response"))).
Proof. intros Hg. unfold generateAnswer. unfold_M. now rewrite Hg. Qed.

(** The handler after a scrape that found something. *)
Lemma POST_scraped (srv srv' : Server) (body : json) (items : list json)
  (t : list Event) (s : Source) (l : list Source) :
  getGroqClient w srv = inr srv' ->
  truthy (member (lit "query") body) = true ->
  member (lit "urls") body = Some (JArr items) ->
  scrapeWebsites w items = (t, inr (s :: l)) ->
  POST w srv (inr body)
  = (t ++ [EvModelCall SYSTEM_PROMPT (userPrompt (member (lit "query") body) (s :: l))],
     match completion_result w SYSTEM_PROMPT
             (userPrompt (member (lit "query") body) (s :: l)) with
     | inl _ =>
         {| chat_status := 500;
            chat_body := ChatFailure (lit "Failed to generate AI response")
                           (stack_of w (lit "Failed to generate AI response")) |}
     | inr completion =>
         {| chat_status := 200;
            chat_body := ChatAnswer {| answer := modelAnswer completion;
                                       answer_sources := s :: l |} |}
     end).
Proof.
  intros Hg Hq Hu Hs.
  rewrite (POST_valid w srv srv' body items Hg Hq Hu), Hs.
  rewrite (generateAnswer_cons srv' srv' _ s l (getGroqClient_cached srv srv' Hg)).
  destruct (completion_result w SYSTEM_PROMPT
              (userPrompt (member (lit "query") body) (s :: l))); reflexivity.
Qed.


(** The four ways a request ends. *)
Lemma POST_cases (srv : Server) (req_json : JsError + json) :
  (* rejected before the scraping *)
  (exists r, POST w srv req_json = ([], r)
     /\ (chat_status r = 500 \/ chat_status r = 400) /\ ~ isAnswer (chat_body r))
  (* the collector threw *)
  \/ (exists t r, POST w srv req_json = (t, r) /\ noModelCall t
        /\ chat_status r = 500 /\ ~ isAnswer (chat_body r))
  (* nothing scraped *)
  \/ (exists t r, POST w srv req_json = (t, r) /\ noModelCall t
        /\ chat_status r = 404 /\ ~ isAnswer (chat_body r))
  (* the model was asked *)
  \/ (exists srv' body items t s l,
        getGroqClient w srv = inr srv' /\ req_json = inr body
        /\ truthy (member (lit "query") body) = true
        /\ member (lit "urls") body = Some (JArr items)
        /\ scrapeWebsites w items = (t, inr (s :: l))).
Proof.
  destruct (getGroqClient w srv) as [e|srv'] eqn:Hg.
  { left. unfold POST. rewrite Hg. eexists. split; [reflexivity|]. cbn. tauto. }
  destruct req_json as [e|body].
  { left. unfold POST. rewrite Hg. eexists. split; [reflexivity|]. cbn. tauto. }
  assert (Hcase : body = JNull \/ body <> JNull)
    by (destruct body; (now left) || (right; discriminate)).
  destruct Hcase as [->|Hbody].
  { left. unfold POST. rewrite Hg. eexists. split; [reflexivity|]. cbn. tauto. }
  destruct (truthy (member (lit "query") body)) eqn:Hq.
  2:{ left. rewrite (POST_invalid w srv srv' body Hg Hbody (or_introl Hq)).
      eexists. split; [reflexivity|]. cbn. tauto. }
  destruct (isArray (member (lit "urls") body)) eqn:Ha.
  2:{ left. rewrite (POST_invalid w srv srv' body Hg Hbody (or_intror Ha)).
      eexists. split; [reflexivity|]. cbn. tauto. }
  apply isArray_items in Ha as [items Hu].
  pose proof (scrapeWebsites_noModelCall w items) as Hn.
  destruct (scrapeWebsites w items) as [t [e|[|s l]]] eqn:Hs; cbn in Hn.
  - right. left. rewrite (POST_valid w srv srv' body items Hg Hq Hu), Hs.
    eexists _, _. split; [reflexivity|]. cbn. tauto.
  - right. right. left. rewrite (POST_valid w srv srv' body items Hg Hq Hu), Hs.
    eexists _, _. split; [reflexivity|]. cbn. tauto.
  - right. right. right. exists srv', body, items, t, s, l. tauto.
Qed.

End ChatMore.

(** X5: without a client and without the key in the environment, every
    request (whatever its body) is answered 500 with the configuration
    message, and nothing else happens: no page is opened and the model is
    not called. *)
Theorem missing_key_is_500_before_anything
  (w : World) (srv : Chat.Server) (req_json : JsError + json) :
  Chat.groqClient srv = false ->
  truthyString (Chat.GROQ_API_KEY srv) = false ->
  Chat.POST w srv req_json
  = ([], {| Chat.chat_status := 500;
            Chat.chat_body :=
              Chat.ChatError (lit "Server configuration error: GROQ_API_KEY not set") |}).
Proof.
  intros Hclient Hkey. unfold Chat.POST, Chat.getGroqClient.
  now rewrite Hclient, Hkey.
Qed.

Lemma missing_key_is_500_before_anything_witness :
  Chat.POST Samples.goodWorld MoreSamples.unconfigured (inr MoreSamples.goodBody)
  = ([], {| Chat.chat_status := 500;
            Chat.chat_body :=
              Chat.ChatError (lit "Server configuration error: GROQ_API_KEY not set") |}).
Proof.
  apply (missing_key_is_500_before_anything Samples.goodWorld MoreSamples.unconfigured).
  - reflexivity.
  - reflexivity.
Defined.

(** X6: on a list of sources that is not empty, [generateAnswer] calls
    the model at most once and either returns an answer that is not empty
    together with the very list it was given, or throws the one error
    [Failed to generate AI response], whatever went wrong. *)
Theorem generateAnswer_answers_or_fails_generically
  (w : World) (srv : Chat.Server) (query : jsvalue) (s : Source) (l : list Source) :
  ((Chat.generateAnswer w srv query (s :: l)).1 = []
   \/ (Chat.generateAnswer w srv query (s :: l)).1
      = [EvModelCall Chat.SYSTEM_PROMPT (Chat.userPrompt query (s :: l))])
  /\ ((Chat.generateAnswer w srv query (s :: l)).2
      = inl (Error w (lit "Failed to generate AI response"))
      \/ exists a, (Chat.generateAnswer w srv query (s :: l)).2 = inr a
           /\ Chat.answer a <> [] /\ Chat.answer_sources a = s :: l).
Proof.
  destruct (Chat.getGroqClient w srv) as [e|srv'] eqn:Hg.
  - rewrite (generateAnswer_no_client w srv e query s l Hg). cbn. split; now left.
  - rewrite (generateAnswer_cons w srv srv' query s l Hg). cbn. split; [now right|].
    destruct (completion_result w Chat.SYSTEM_PROMPT (Chat.userPrompt query (s :: l)))
      as [e|c]; [now left|].
    right. eexists. split; [reflexivity|]. cbn. split; [apply modelAnswer_nonempty|reflexivity].
Qed.

(** X7: every request is answered 200, 400, 404 or 500; the model is
    called at most once per request, exactly once before a 200 and never
    before a 400 or a 404; and the body is an answer exactly when the
    status is 200. *)
Theorem POST_statuses_and_model_calls
  (w : World) (srv : Chat.Server) (req_json : JsError + json) :
  (Chat.chat_status (Chat.POST w srv req_json).2 = 200
   \/ Chat.chat_status (Chat.POST w srv req_json).2 = 400
   \/ Chat.chat_status (Chat.POST w srv req_json).2 = 404
   \/ Chat.chat_status (Chat.POST w srv req_json).2 = 500)
  /\ (modelCalls (Chat.POST w srv req_json).1 <= 1)%nat
  /\ (Chat.chat_status (Chat.POST w srv req_json).2 = 200 ->
      modelCalls (Chat.POST w srv req_json).1 = 1%nat)
  /\ (Chat.chat_status (Chat.POST w srv req_json).2 = 400
      \/ Chat.chat_status (Chat.POST w srv req_json).2 = 404 ->
      modelCalls (Chat.POST w srv req_json).1 = 0%nat)
  /\ (Chat.chat_status (Chat.POST w srv req_json).2 = 200
      <-> isAnswer (Chat.chat_body (Chat.POST w srv req_json).2)).
Proof.
  destruct (POST_cases w srv req_json)
    as [(r & -> & Hr & Hb) | [(t & r & -> & Hn & Hr & Hb) | [(t & r & -> & Hn & Hr & Hb)
       | (srv' & body & items & t & s & l & Hg & -> & Hq & Hu & Hs)]]].
  - cbn [fst snd]. change (modelCalls []) with 0%nat.
    repeat split; try lia; try tauto; intros; lia.
  - cbn [fst snd]. rewrite (modelCalls_none t Hn), Hr.
    repeat split; try lia; try tauto; intros; lia.
  - cbn [fst snd]. rewrite (modelCalls_none t Hn), Hr.
    repeat split; try lia; try tauto; intros; lia.
  - rewrite (POST_scraped w srv srv' body items t s l Hg Hq Hu Hs). cbn [fst snd].
    pose proof (scrapeWebsites_noModelCall w items) as Hn. rewrite Hs in Hn. cbn in Hn.
    rewrite modelCalls_app, (modelCalls_none t Hn).
    change (modelCalls [EvModelCall _ _]) with 1%nat.
    destruct (completion_result w Chat.SYSTEM_PROMPT
                (Chat.userPrompt (member (lit "query") body) (s :: l))); cbn;
      repeat split; try lia; try tauto; intros; try lia; intuition lia.
Qed.

(** X8: a 200 response is an answer that is not empty, given with the
    sources the collector returned for the [urls] of the body (a list
    that is not empty); the trace is the collector's followed by one call
    of the model with the prompt built from those sources. *)
Theorem ok_response_answers_from_the_scraped_sources
  (w : World) (srv : Chat.Server) (req_json : JsError + json) :
  Chat.chat_status (Chat.POST w srv req_json).2 = 200 ->
  exists body items scraped a,
    req_json = inr body
    /\ member (lit "urls") body = Some (JArr items)
    /\ Chat.chat_body (Chat.POST w srv req_json).2 = Chat.ChatAnswer a
    /\ Chat.answer a <> []
    /\ Chat.answer_sources a <> []
    /\ Chat.scrapeWebsites w items = (scraped, inr (Chat.answer_sources a))
    /\ (Chat.POST w srv req_json).1
       = scraped ++ [EvModelCall Chat.SYSTEM_PROMPT
                       (Chat.userPrompt (member (lit "query") body) (Chat.answer_sources a))].
Proof.
  intros H200.
  destruct (POST_cases w srv req_json)
    as [(r & HP & Hr & _) | [(t & r & HP & _ & Hr & _) | [(t & r & HP & _ & Hr & _)
       | (srv' & body & items & t & s & l & Hg & -> & Hq & Hu & Hs)]]];
    try (rewrite HP in H200; cbn in H200; lia).
  rewrite (POST_scraped w srv srv' body items t s l Hg Hq Hu Hs) in *.
  cbn [fst snd] in *.
  destruct (completion_result w Chat.SYSTEM_PROMPT
              (Chat.userPrompt (member (lit "query") body) (s :: l))) as [e|c];
    [cbn in H200; lia|].
  exists body, items, t, {| Chat.answer := modelAnswer c; Chat.answer_sources := s :: l |}.
  cbn. repeat split; try assumption; try reflexivity.
  - apply modelAnswer_nonempty.
  - discriminate.
Qed.

Example good_request_is_answered :
  Chat.POST Samples.goodWorld Samples.configured (inr MoreSamples.goodBody)
  = ([EvGoto (lit "https://a.example"); EvPageClose; EvBrowserClose;
      EvModelCall Chat.SYSTEM_PROMPT
        (lit "Context:" ++ [LF] ++ lit "[Source: https://a.example]" ++ [LF]
         ++ lit "Hello world" ++ [LF; LF] ++ lit "Question: why?")],
     {| Chat.chat_status := 200;
        Chat.chat_body :=
          Chat.ChatAnswer
            {| Chat.answer := lit "An answer.";
               Chat.answer_sources :=
                 [{| url := lit "https://a.example"; content := lit "Hello world";
                     title := Some (lit "https://a.example") |}] |} |}).
Proof. vm_compute. reflexivity. Qed.

Lemma ok_response_answers_from_the_scraped_sources_witness :
  exists body items scraped a,
    @inr JsError json MoreSamples.goodBody = inr body
    /\ member (lit "urls") body = Some (JArr items)
    /\ Chat.chat_body (Chat.POST Samples.goodWorld Samples.configured
                         (inr MoreSamples.goodBody)).2 = Chat.ChatAnswer a
    /\ Chat.answer a <> []
    /\ Chat.answer_sources a <> []
    /\ Chat.scrapeWebsites Samples.goodWorld items = (scraped, inr (Chat.answer_sources a))
    /\ (Chat.POST Samples.goodWorld Samples.configured (inr MoreSamples.goodBody)).1
       = scraped ++ [EvModelCall Chat.SYSTEM_PROMPT
                       (Chat.userPrompt (member (lit "query") body) (Chat.answer_sources a))].
Proof.
  apply (ok_response_answers_from_the_scraped_sources
           Samples.goodWorld Samples.configured (inr MoreSamples.goodBody)).
  vm_compute. reflexivity.
Defined.

(** X9: when the call of the model rejects, the request is answered 500
    with the message [Failed to generate AI response] and the stack of
    that new error: the message and stack of the error the model call
    rejected with are not sent. *)
Theorem model_failure_is_a_generic_500
  (w : World) (srv srv' : Chat.Server) (body : json) (items : list json)
  (t : list Event) (s : Source) (l : list Source) (e : JsError) :
  Chat.getGroqClient w srv = inr srv' ->
  truthy (member (lit "query") body) = true ->
  member (lit "urls") body = Some (JArr items) ->
  Chat.scrapeWebsites w items = (t, inr (s :: l)) ->
  completion_result w Chat.SYSTEM_PROMPT
    (Chat.userPrompt (member (lit "query") body) (s :: l)) = inl e ->
  (Chat.POST w srv (inr body)).2
  = {| Chat.chat_status := 500;
       Chat.chat_body :=
         Chat.ChatFailure (lit "Failed to generate AI response")
           (stack_of w (lit "Failed to generate AI response")) |}.
Proof.
  intros Hg Hq Hu Hs He.
  rewrite (POST_scraped w srv srv' body items t s l Hg Hq Hu Hs). cbn [snd].
  now rewrite He.
Qed.

Lemma model_failure_is_a_generic_500_witness :
  (Chat.POST MoreSamples.mutedWorld Samples.configured (inr MoreSamples.goodBody)).2
  = {| Chat.chat_status := 500;
       Chat.chat_body :=
         Chat.ChatFailure (lit "Failed to generate AI response") (lit "Error: at POST") |}.
Proof.
  refine (model_failure_is_a_generic_500 MoreSamples.mutedWorld Samples.configured
            {| Chat.groqClient := true; Chat.GROQ_API_KEY := Some (lit "gsk_key") |}
            MoreSamples.goodBody [JStr (lit "https://a.example")]
            [EvGoto (lit "https://a.example"); EvPageClose; EvBrowserClose]
            {| url := lit "https://a.example"; content := lit "Hello world";
               title := Some (lit "https://a.example") |} []
            Samples.anError _ _ _ _ _).
  - reflexivity.
  - reflexivity.
  - reflexivity.
  - vm_compute. reflexivity.
  - reflexivity.
Defined.

(** ** The collector: order, truncation, release *)

Section CollectorMore.

Import Chat.

Variable w : World.

Lemma scrapeLoop_sublist (urls : list json) :
  forall k acc,
    exists l, (scrapeLoop w k urls acc).2.1 = acc ++ l
      /\ map url l `sublist_of` validUrls urls.
Proof.
  induction urls as [|j rest IH]; intros k acc; cbn [scrapeLoop validUrls].
  { exists []. cbn. split; [now rewrite app_nil_r|constructor]. }
  destruct j; try (exists []; cbn; split; [now rewrite app_nil_r|apply sublist_nil_l]).
  destruct (validScheme s) eqn:Hv; cbn [negb]; [|apply IH].
  destruct (newPage_result (page_script w k)); cbn.
  { exists []. cbn. split; [now rewrite app_nil_r|apply sublist_nil_l]. }
  pose proof (scrapeTry_url w (page_script w k) s) as Hurl.
  destruct (scrapeTry w (page_script w k) s) as [t r]. cbn in Hurl.
  destruct (close_result (page_script w k)); cbn.
  - destruct r as [src|]; cbn.
    + exists [src]. split; [reflexivity|]. cbn. rewrite (Hurl src eq_refl).
      apply sublist_skip, sublist_nil_l.
    + exists []. split; [now rewrite app_nil_r|apply sublist_nil_l].
  - destruct (IH (S k) (pushSource acc r)) as (l & Hl & Hsub).
    destruct (scrapeLoop w (S k) rest (pushSource acc r)) as [t' res]. cbn in *.
    destruct r as [src|]; cbn in Hl.
    + exists (src :: l). split; [now rewrite Hl, <- app_assoc|].
      cbn. rewrite (Hurl src eq_refl). now apply sublist_skip.
    + exists l. split; [exact Hl|]. now apply sublist_cons.
Qed.

(** An entry that is not a string ends the loop: what comes after it
    changes neither the trace nor the array. *)
Lemma scrapeLoop_truncated (pre : list json) (j : json) (rest : list json) :
  (forall u, j <> JStr u) ->
  forall k acc,
    (scrapeLoop w k (pre ++ j :: rest) acc).1 = (scrapeLoop w k pre acc).1
    /\ (scrapeLoop w k (pre ++ j :: rest) acc).2.1 = (scrapeLoop w k pre acc).2.1.
Proof.
  intros Hj. induction pre as [|x pre IH]; intros k acc.
  - cbn [app]. destruct j; try (now split). now contradiction (Hj s).
  - cbn [app scrapeLoop].
    destruct x; try (now split).
    destruct (validScheme s); cbn [negb]; [|apply IH].
    destruct (newPage_result (page_script w k)); [now split|].
    destruct (scrapeTry w (page_script w k) s) as [t r].
    destruct (close_result (page_script w k)); [now split|].
    destruct (IH (S k) (pushSource acc r)) as [H1 H2].
    destruct (scrapeLoop w (S k) (pre ++ j :: rest) (pushSource acc r)) as [t1 res1].
    destruct (scrapeLoop w (S k) pre (pushSource acc r)) as [t2 res2].
    cbn in *. now subst.
Qed.

Lemma scrapeWebsites_of_loop (urls urls' : list json) :
  (scrapeLoop w 0 urls []).1 = (scrapeLoop w 0 urls' []).1 ->
  (scrapeLoop w 0 urls []).2.1 = (scrapeLoop w 0 urls' []).2.1 ->
  scrapeWebsites w urls = scrapeWebsites w urls'.
Proof.
  intros H1 H2. unfold scrapeWebsites.
  destruct (scrapeLoop w 0 urls []) as [t [srcs err]].
  destruct (scrapeLoop w 0 urls' []) as [t' [srcs' err']].
  cbn in *. now subst.
Qed.








End CollectorMore.

(** X10: the URLs of the Source records [scrapeWebsites] returns are
    entries of the list that are strings starting with [http://] or
    [https://], in the order of the list: a sublist of them. *)
Theorem sources_follow_the_valid_entries (w : World) (urls : list json) :
  map url (returned (Chat.scrapeWebsites w urls)) `sublist_of` validUrls urls.
Proof.
  destruct (returned_scrapeWebsites w urls) as [-> | ->]; [|apply sublist_nil_l].
  destruct (scrapeLoop_sublist w urls 0 []) as (l & -> & Hl). exact Hl.
Qed.

(** X11: an entry of the list that is not a string ends the collection
    without an error: the collector behaves as if the list stopped just
    before that entry, and the entries after it are never fetched. *)
Theorem non_string_entry_truncates_the_list
  (w : World) (pre : list json) (j : json) (rest : list json) :
  (forall u, j <> JStr u) ->
  Chat.scrapeWebsites w (pre ++ j :: rest) = Chat.scrapeWebsites w pre.
Proof.
  intros Hj.
  destruct (scrapeLoop_truncated w pre j rest Hj 0 []) as [H1 H2].
  now apply scrapeWebsites_of_loop.
Qed.

Lemma non_string_entry_truncates_the_list_witness :
  Chat.scrapeWebsites Samples.goodWorld
    ([JStr (lit "https://a.example")] ++ JNum 7 :: [JStr (lit "https://b.example")])
  = Chat.scrapeWebsites Samples.goodWorld [JStr (lit "https://a.example")].
Proof.
  apply (non_string_entry_truncates_the_list Samples.goodWorld
           [JStr (lit "https://a.example")] (JNum 7) [JStr (lit "https://b.example")]).
  discriminate.
Defined.


(** ** The extractor: selectors and white space *)

Section ExtractorMore.

Import Chat.

Lemma spaced_replaceRuns (b : bool) (s : jsstring) :
  spaced b (replaceRuns isWhiteSpace b s) = true.
Proof.
  revert b. induction s as [|c r IH]; intros b; cbn; [reflexivity|].
  destruct (isWhiteSpace c) eqn:Hc.
  - destruct b; [apply IH|].
    cbn. change (isWhiteSpace 32) with true. cbn. apply IH.
  - cbn. rewrite Hc. apply IH.
Qed.

Lemma replaceRuns_no_lineFeed (b : bool) (s : jsstring) :
  Forall (fun c => isLineFeed c = false) (replaceRuns isWhiteSpace b s).
Proof.
  revert b. induction s as [|c r IH]; intros b; cbn; [constructor|].
  destruct (isWhiteSpace c) eqn:Hc.
  - destruct b; [apply IH|]. constructor; [reflexivity|apply IH].
  - constructor; [|apply IH].
    unfold isLineFeed. destruct (N.eqb_spec c 10) as [->|]; [|reflexivity].
    discriminate Hc.
Qed.

Lemma replaceRuns_nothing (p : N -> bool) (b : bool) (s : jsstring) :
  Forall (fun c => p c = false) s -> replaceRuns p b s = s.
Proof.
  intros H. revert b. induction H as [|c r Hc _ IH]; intros b; cbn; [reflexivity|].
  now rewrite Hc, IH.
Qed.

Lemma spaced_app_l (b : bool) (l1 l2 : jsstring) :
  spaced b (l1 ++ l2) = true -> spaced b l1 = true.
Proof.
  revert b. induction l1 as [|c r IH]; intros b; cbn; [reflexivity|].
  destruct (isWhiteSpace c).
  - intros H. apply andb_true_iff in H as [H1 H2]. rewrite H1. cbn. now apply IH.
  - apply IH.
Qed.

Lemma spaced_trimStart (b : bool) (l : jsstring) :
  spaced b l = true -> spaced true (trimStart l) = true.
Proof.
  revert b. induction l as [|c r IH]; intros b; cbn; [reflexivity|].
  destruct (isWhiteSpace c) eqn:Hc.
  - intros H. apply andb_true_iff in H as [_ H]. now apply (IH true).
  - intros H. cbn. now rewrite Hc.
Qed.

Lemma spaced_trim (b : bool) (l : jsstring) :
  spaced b l = true -> spaced true (trim l) = true.
Proof.
  intros H. unfold trim.
  destruct (trimEnd_prefix (trimStart l)) as (t & Ht & _).
  apply (spaced_app_l true _ t). rewrite <- Ht. now apply (spaced_trimStart b).
Qed.

Lemma spaced_cleanContent (s : jsstring) : spaced true (cleanContent s) = true.
Proof.
  unfold cleanContent, slice0.
  rewrite (replaceRuns_nothing isLineFeed false _ (replaceRuns_no_lineFeed false s)).
  apply (spaced_app_l true _ (drop CONTENT_LIMIT (trim (replaceRuns isWhiteSpace false s)))).
  rewrite take_drop. apply (spaced_trim false). apply spaced_replaceRuns.
Qed.

(** What [spaced] says, read on the text. *)
Lemma spaced_head (c : N) (r : jsstring) :
  spaced true (c :: r) = true -> isWhiteSpace c = false.
Proof.
  cbn. destruct (isWhiteSpace c); [|reflexivity].
  rewrite andb_false_r. cbn. discriminate.
Qed.

Lemma spaced_only_spaces (b : bool) (l : jsstring) :
  spaced b l = true -> Forall (fun x => isWhiteSpace x = true -> x = 32) l.
Proof.
  revert b. induction l as [|c r IH]; intros b; cbn; [constructor|].
  destruct (isWhiteSpace c) eqn:Hc.
  - intros H. apply andb_true_iff in H as [H1 H2].
    apply andb_true_iff in H1 as [H1 _]. apply N.eqb_eq in H1.
    constructor; [now intros _|now apply (IH true)].
  - intros H. constructor; [congruence|now apply (IH false)].
Qed.

Lemma spaced_not_adjacent (b : bool) (l1 : jsstring) (x y : N) (l2 : jsstring) :
  spaced b (l1 ++ x :: y :: l2) = true ->
  isWhiteSpace x = true -> isWhiteSpace y = false.
Proof.
  revert b. induction l1 as [|c r IH]; intros b; cbn.
  - intros H Hx. rewrite Hx in H.
    apply andb_true_iff in H as [_ H].
    destruct (isWhiteSpace y); [|reflexivity].
    rewrite andb_false_r in H. cbn in H. discriminate.
  - destruct (isWhiteSpace c).
    + intros H. apply andb_true_iff in H as [_ H]. now apply (IH true).
    + apply IH.
Qed.

Lemma firstMatch_first (dom : Document) (pre : list jsstring) (selector : jsstring)
  (post : list jsstring) :
  Forall (fun sel => sel_length dom sel = O) pre ->
  (0 < sel_length dom selector)%nat ->
  firstMatch dom (pre ++ selector :: post) = sel_text dom selector.
Proof.
  intros Hpre Hsel. induction Hpre as [|sel pre Hz _ IH]; cbn.
  - destruct (sel_length dom selector); [lia|reflexivity].
  - now rewrite Hz.
Qed.

Lemma firstMatch_none (dom : Document) (selectors : list jsstring) :
  Forall (fun sel => sel_length dom sel = O) selectors ->
  firstMatch dom selectors = [].
Proof. induction 1 as [|sel l Hz _ IH]; cbn; [reflexivity|]. now rewrite Hz. Qed.

End ExtractorMore.

(** X13: the cleaned text has no leading white space, its only white
    space code units are single spaces (never two in a row, never a tab
    or a line break), and this holds of the [content] of every Source
    record the collector returns. *)
Theorem cleaned_text_is_single_spaced :
  (forall s : jsstring,
      (forall c r, Chat.cleanContent s = c :: r -> isWhiteSpace c = false)
      /\ Forall (fun x => isWhiteSpace x = true -> x = 32) (Chat.cleanContent s)
      /\ (forall l1 x y l2, Chat.cleanContent s = l1 ++ x :: y :: l2 ->
            isWhiteSpace x = true -> isWhiteSpace y = false))
  /\ (forall (w : World) (urls : list json),
        Forall (fun src => spaced true (content src) = true)
          (returned (Chat.scrapeWebsites w urls))).
Proof.
  split.
  - intros s. pose proof (spaced_cleanContent s) as Hs. split; [|split].
    + intros c r Hc. rewrite Hc in Hs. now apply spaced_head in Hs.
    + now apply (spaced_only_spaces true).
    + intros l1 x y l2 Hc. rewrite Hc in Hs. now apply (spaced_not_adjacent true l1 x y l2).
  - intros w urls. apply scrapeWebsites_Forall.
    intros k u s _ Hs.
    destruct (scrapeTry_Some w _ _ _ Hs) as (dom & _ & _ & ->). cbn.
    unfold Chat.extractContent. apply spaced_cleanContent.
Qed.

(** X14: the text that is cleaned is the text of the first content
    selector, in the order of the list, that matches an element; when
    that text is empty, or when no selector matches, it is the text of
    the body: a later selector that matches is not looked at. *)
Theorem first_matching_selector_or_body
  (dom : Document) (pre : list jsstring) (selector : jsstring) (post : list jsstring) :
  Chat.contentSelectors = pre ++ selector :: post ->
  Forall (fun sel => sel_length dom sel = O) pre ->
  ((0 < sel_length dom selector)%nat ->
     Chat.extractContent dom
     = Chat.cleanContent (if nonEmpty (sel_text dom selector) then sel_text dom selector
                          else sel_text dom (lit "body")))
  /\ (sel_length dom selector = O ->
      Forall (fun sel => sel_length dom sel = O) post ->
      Chat.extractContent dom = Chat.cleanContent (sel_text dom (lit "body"))).
Proof.
  intros Hsels Hpre. unfold Chat.extractContent. rewrite Hsels. split.
  - intros Hsel. now rewrite (firstMatch_first dom pre selector post Hpre Hsel).
  - intros Hz Hpost. rewrite firstMatch_none; [reflexivity|].
    apply Forall_app. split; [exact Hpre|]. now constructor.
Qed.

Lemma first_matching_selector_or_body_witness :
  Chat.extractContent MoreSamples.articleDom = lit "An article text".
Proof.
  refine (eq_trans (proj1 (first_matching_selector_or_body MoreSamples.articleDom
            [] (lit "article")
            [lit "main"; lit "[role=" ++ [34] ++ lit "main" ++ [34] ++ lit "]";
             lit ".content"; lit "#content"; lit ".article-body";
             lit ".post-content"; lit ".entry-content"; lit ".main-content"]
            _ _) _) _).
  - reflexivity.
  - constructor.
  - vm_compute. lia.
  - vm_compute. reflexivity.
Defined.

(** ** The share route, beyond the round trip *)

Section ShareMore.

Import Share.

Lemma conversationKey_inj (i i' : jsstring) :
  conversationKey i = conversationKey i' -> i = i'.
Proof. unfold conversationKey. apply app_inv_head. Qed.

(** [POST] with a conversation in the body and the store at hand. *)
Lemma POST_stored (store : gmap jsstring (jsstring * N)) (now : N)
  (data conv : json) :
  member (lit "conversation") data = Some conv ->
  truthy (Some conv) = true ->
  POST store now None (inr data)
  = (redis_set store now (conversationKey (templateValue (member (lit "id") conv)))
       (Json.stringify conv) EXPIRY,
     {| share_status := 200; share_body := ShareStored (member (lit "id") conv) |}).
Proof.
  intros Hm Ht. unfold POST.
  destruct data; try (cbn in Hm; discriminate).
  rewrite Hm, Ht. reflexivity.
Qed.

(** What [POST] does to the store: nothing, or one write under the key
    of the conversation, and that only when it answers 200. *)
Lemma POST_effect (store : gmap jsstring (jsstring * N)) (now : N)
  (outage : option JsError) (req_json : JsError + json) :
  ((POST store now outage req_json).1 = store
   /\ ((POST store now outage req_json).2
       = {| share_status := 500;
            share_body := ShareError (lit "Failed to share conversation") |}
       \/ (POST store now outage req_json).2
          = {| share_status := 400;
               share_body := ShareError (lit "No conversation data provided") |}))
  \/ (exists data conv,
        outage = None /\ req_json = inr data
        /\ member (lit "conversation") data = Some conv /\ truthy (Some conv) = true
        /\ POST store now outage req_json
           = (redis_set store now (conversationKey (templateValue (member (lit "id") conv)))
                (Json.stringify conv) EXPIRY,
              {| share_status := 200;
                 share_body := ShareStored (member (lit "id") conv) |})).
Proof.
  destruct req_json as [e|data]; [left; split; [reflexivity|now left]|].
  destruct (member (lit "conversation") data) as [conv|] eqn:Hm.
  2:{ left. unfold POST. destruct data; rewrite ?Hm; cbn; split; auto. }
  destruct (truthy (Some conv)) eqn:Ht.
  2:{ left. unfold POST. destruct data; rewrite ?Hm, ?Ht; cbn; split; auto. }
  destruct outage as [e|].
  { left. unfold POST. destruct data; rewrite ?Hm, ?Ht; cbn; split; auto. }
  right. exists data, conv. repeat split; try assumption.
  now apply POST_stored.
Qed.



Lemma member_is_object (name : jsstring) (v x : json) :
  member name v = Some x -> truthy (Some v) = true.
Proof. destruct v; cbn; try discriminate. reflexivity. Qed.

End ShareMore.





(** X17: sharing touches one key only.  Whatever a [POST] is sent and
    however it ends, a [GET] for an id other than the text of the posted
    conversation's [id] answers as it did before. *)
Theorem sharing_leaves_other_ids_alone
  (store : gmap jsstring (jsstring * N)) (now later : N)
  (outage outage' : option JsError) (req_json : JsError + json) (i : jsstring) :
  (forall data conv, req_json = inr data ->
     member (lit "conversation") data = Some conv ->
     templateValue (member (lit "id") conv) <> i) ->
  Share.GET (Share.POST store now outage req_json).1 later outage' (Some i)
  = Share.GET store later outage' (Some i).
Proof.
  intros Hother.
  destruct (POST_effect store now outage req_json)
    as [[-> _]|(data & conv & _ & Hr & Hm & _ & ->)]; [reflexivity|].
  cbn [fst]. unfold Share.GET.
  destruct (negb (truthyString (Some i))); [reflexivity|].
  destruct outage'; [reflexivity|].
  replace (Share.redis_get (Share.redis_set store now _ _ _) later
             (Share.conversationKey (default [] (Some i))))
    with (Share.redis_get store later (Share.conversationKey (default [] (Some i))));
    [reflexivity|].
  unfold Share.redis_get, Share.redis_set. rewrite lookup_insert_ne; [reflexivity|].
  intros E. apply conversationKey_inj in E. exact (Hother data conv Hr Hm E).
Qed.

Lemma sharing_leaves_other_ids_alone_witness :
  Share.GET
    (Share.POST ∅ 5 None (inr (shareBody Samples.sharedChat))).1
    6 None (Some (lit "other"))
  = Share.GET ∅ 6 None (Some (lit "other")).
Proof.
  apply (sharing_leaves_other_ids_alone ∅ 5 6 None None
           (inr (shareBody Samples.sharedChat)) (lit "other")).
  intros data conv Hr Hm. injection Hr as <-.
  vm_compute in Hm. injection Hm as <-. vm_compute. discriminate.
Defined.

(** X18: [POST /api/share] answers 200, 400 or 500; it writes to the
    store only when it answers 200, and then one entry whose text is
    the posted conversation and whose life is seven days. *)
Theorem share_writes_only_with_200
  (store : gmap jsstring (jsstring * N)) (now : N)
  (outage : option JsError) (req_json : JsError + json) :
  let result := Share.POST store now outage req_json in
  (Share.share_status result.2 = 200 \/ Share.share_status result.2 = 400
   \/ Share.share_status result.2 = 500)
  /\ (Share.share_status result.2 <> 200 -> result.1 = store)
  /\ (Share.share_status result.2 = 200 ->
      exists data conv,
        req_json = inr data /\ member (lit "conversation") data = Some conv
        /\ result.1 = <[Share.conversationKey (templateValue (member (lit "id") conv))
                        := (Json.stringify conv, now + 604800)]> store).
Proof.
  cbv zeta.
  destruct (POST_effect store now outage req_json)
    as [[Hs [Hr|Hr]]|(data & conv & _ & Hr & Hm & _ & E)].
  - rewrite Hr, Hs. cbn. repeat split; auto. discriminate.
  - rewrite Hr, Hs. cbn. repeat split; auto. discriminate.
  - rewrite E. cbn [fst snd Share.share_status]. split; [now left|].
    split; [congruence|]. intros _. exists data, conv. repeat split; assumption.
Qed.


(** ** The chat page *)

Section UrlList.

Import Page.

Lemma split_not_nil (sep : N) (s : jsstring) : split sep s <> [].
Proof.
  destruct s as [|c r]; cbn; [discriminate|].
  destruct (c =? sep); [discriminate|]. destruct (split sep r); discriminate.
Qed.

Lemma split_no_separator (sep : N) (s : jsstring) :
  Forall (fun piece => sep ∉ piece) (split sep s).
Proof.
  induction s as [|c r IH]; cbn.
  - constructor; [apply not_elem_of_nil|constructor].
  - destruct (N.eqb_spec c sep) as [->|Hne].
    + constructor; [apply not_elem_of_nil|exact IH].
    + destruct (split sep r) as [|piece pieces].
      * constructor; [|constructor].
        apply not_elem_of_cons. split; [congruence|apply not_elem_of_nil].
      * inversion IH; subst. constructor; [|assumption].
        apply not_elem_of_cons. split; [congruence|assumption].
Qed.

(** Splitting undoes joining, and joining undoes splitting. *)
Lemma join_split (sep : N) (s : jsstring) : join [sep] (split sep s) = s.
Proof.
  induction s as [|c r IH]; [reflexivity|]. cbn [split].
  destruct (N.eqb_spec c sep) as [->|Hne].
  - pose proof (split_not_nil sep r) as Hn.
    destruct (split sep r) as [|p ps]; [contradiction|].
    change (join [sep] ([] :: p :: ps)) with (sep :: join [sep] (p :: ps)).
    now rewrite IH.
  - pose proof (split_not_nil sep r) as Hn.
    destruct (split sep r) as [|p ps]; [contradiction|].
    destruct ps as [|q qs]; cbn in *; now rewrite <- IH.
Qed.

Lemma split_piece (sep : N) (p : jsstring) : sep ∉ p -> split sep p = [p].
Proof.
  induction p as [|c r IH]; intros Hp; [reflexivity|].
  apply not_elem_of_cons in Hp as [Hc Hr]. cbn.
  destruct (N.eqb_spec c sep) as [->|_]; [contradiction|].
  now rewrite (IH Hr).
Qed.

Lemma split_app (sep : N) (p rest : jsstring) :
  sep ∉ p -> split sep (p ++ sep :: rest) = p :: split sep rest.
Proof.
  induction p as [|c r IH]; intros Hp.
  - cbn. now rewrite N.eqb_refl.
  - apply not_elem_of_cons in Hp as [Hc Hr]. cbn.
    destruct (N.eqb_spec c sep) as [->|_]; [contradiction|].
    now rewrite (IH Hr).
Qed.

Lemma split_join (sep : N) (pieces : list jsstring) :
  pieces <> [] -> Forall (fun piece => sep ∉ piece) pieces ->
  split sep (join [sep] pieces) = pieces.
Proof.
  induction pieces as [|p ps IH]; intros Hn Hall; [contradiction|].
  inversion Hall as [|? ? Hp Hps]; subst.
  destruct ps as [|q qs].
  - cbn. now apply split_piece.
  - change (join [sep] (p :: q :: qs)) with (p ++ sep :: join [sep] (q :: qs)).
    rewrite (split_app sep p _ Hp). f_equal. apply IH; [discriminate|assumption].
Qed.

Lemma comma : lit "," = [44].
Proof. reflexivity. Qed.

End UrlList.

(** X20: the list of URLs the page sends holds no empty entry, no entry
    with white space at either end and no entry with a comma, whatever
    the text of the URL field. *)
Theorem urlList_entries_are_clean (urls : jsstring) :
  Forall cleanEntry (Page.urlList urls).
Proof.
  unfold Page.urlList. apply List.Forall_forall. intros u Hu.
  apply filter_In in Hu as [Hu Hne].
  apply in_map_iff in Hu as (piece & <- & Hp).
  split; [now apply nonEmpty_true|]. split; [apply trim_trim|].
  intros Hc. apply trim_elem in Hc.
  pose proof (split_no_separator 44 urls) as Hall.
  rewrite List.Forall_forall in Hall. exact (Hall piece Hp Hc).
Qed.

(** X21: a comma-separated list of clean entries is sent as it was
    typed: joining entries that are not empty, carry no white space at
    either end and no comma, and taking the list of URLs of the result,
    gives the entries back. *)
Theorem urlList_of_joined_entries (entries : list jsstring) :
  Forall cleanEntry entries ->
  Page.urlList (join (lit ",") entries) = entries.
Proof.
  intros Hall. unfold Page.urlList. rewrite comma.
  destruct entries as [|e es]; [reflexivity|].
  rewrite split_join; [|discriminate|].
  2:{ eapply Forall_impl; [exact Hall|]. intros u (_ & _ & H). exact H. }
  induction Hall as [|u us (Hne & Ht & _) _ IH]; [reflexivity|].
  cbn [map List.filter]. rewrite Ht, (proj2 (nonEmpty_true u) Hne). now rewrite IH.
Qed.

Lemma urlList_of_joined_entries_witness :
  Page.urlList (join (lit ",") [lit "https://a.example"; lit "http://b.example/x y"])
  = [lit "https://a.example"; lit "http://b.example/x y"].
Proof.
  apply (urlList_of_joined_entries [lit "https://a.example"; lit "http://b.example/x y"]).
  repeat constructor;
    solve [ vm_compute; discriminate | vm_compute; reflexivity
          | apply (bool_decide_unpack _); vm_compute; exact I ].
Defined.

Section PageMore.

Import Page.

Variable fetchChat : jsstring -> list jsstring -> ChatReply.

Lemma consistent_initialState (initialConversationId : option jsstring)
  (generated : jsstring) :
  consistent (initialState initialConversationId generated).
Proof.
  unfold consistent, initialState. cbn [activeConversation conversations]. split.
  - rewrite lookup_singleton_eq. eauto.
  - intros k c Hk. apply lookup_singleton_Some in Hk as [<- <-]. reflexivity.
Qed.

Lemma consistent_handleNewChat (newId : jsstring) (st : HomeState) :
  consistent st -> consistent (handleNewChat newId st).
Proof.
  intros [_ Hid]. unfold consistent, handleNewChat. cbn [activeConversation conversations].
  split; [rewrite lookup_insert_eq; eauto|].
  intros k c Hk. apply lookup_insert_Some in Hk as [[<- <-]|[_ Hk]]; [reflexivity|eauto].
Qed.

Lemma consistent_handleUpdateUrls (newUrls : jsstring) (st : HomeState) :
  consistent st ->
  exists st', handleUpdateUrls newUrls st = Some st' /\ consistent st'.
Proof.
  intros [[c Hc] Hid]. unfold handleUpdateUrls. rewrite Hc.
  eexists. split; [reflexivity|].
  unfold consistent. cbn [activeConversation conversations].
  split; [rewrite lookup_insert_eq; eauto|].
  intros k c' Hk. apply lookup_insert_Some in Hk as [[<- <-]|[_ Hk]]; [|eauto].
  cbn. eauto.
Qed.

Lemma handleSend_blank (message : jsstring) (st : HomeState) :
  nonEmpty (trim message) = false -> handleSend fetchChat message st = Some st.
Proof. intros H. unfold handleSend. now rewrite H. Qed.

Lemma handleSend_sent (message : jsstring) (st : HomeState) (c : Conversation) :
  nonEmpty (trim message) = true ->
  conversations st !! activeConversation st = Some c ->
  handleSend fetchChat message st
  = Some {| activeConversation := activeConversation st;
            conversations :=
              <[activeConversation st :=
                  {| id := id c;
                     messages := messages c
                       ++ [ {| role := user; msg_content := message; sources := None |};
                            replyMessage (fetchChat message (urlList (urls c))) ];
                     urls := urls c |}]> (conversations st);
            isLoading := false |}.
Proof.
  intros Hm Hc. unfold handleSend. rewrite Hm, Hc. cbn [negb mbind option_bind].
  unfold appendMessage at 2. rewrite Hc. cbn [mbind option_bind].
  unfold appendMessage. rewrite lookup_insert_eq. cbn [id messages urls mbind option_bind].
  rewrite insert_insert_eq, <- app_assoc. reflexivity.
Qed.

Lemma consistent_handleSend (message : jsstring) (st : HomeState) :
  consistent st ->
  exists st', handleSend fetchChat message st = Some st' /\ consistent st'.
Proof.
  intros Hst. destruct (nonEmpty (trim message)) eqn:Hm.
  2:{ exists st. split; [now apply handleSend_blank|exact Hst]. }
  destruct Hst as [[c Hc] Hid].
  rewrite (handleSend_sent message st c Hm Hc). eexists. split; [reflexivity|].
  unfold consistent. cbn [activeConversation conversations].
  split; [rewrite lookup_insert_eq; eauto|].
  intros k c' Hk. apply lookup_insert_Some in Hk as [[<- <-]|[_ Hk]]; [|eauto].
  cbn. eauto.
Qed.

Lemma consistent_step (st : HomeState) (a : Action) :
  consistent st -> exists st', step fetchChat st a = Some st' /\ consistent st'.
Proof.
  intros Hst. destruct a as [newId|newUrls|message]; cbn [step].
  - eexists. split; [reflexivity|]. now apply consistent_handleNewChat.
  - now apply consistent_handleUpdateUrls.
  - now apply consistent_handleSend.
Qed.

Lemma consistent_run (actions : list Action) (st : HomeState) :
  consistent st -> exists st', run fetchChat st actions = Some st' /\ consistent st'.
Proof.
  revert st. induction actions as [|a rest IH]; intros st Hst; cbn [run].
  - now exists st.
  - destruct (consistent_step st a Hst) as (st1 & -> & H1). now apply IH.
Qed.

Lemma trim_nonEmpty (s : jsstring) : nonEmpty (trim s) = true -> nonEmpty s = true.
Proof.
  destruct s; [|reflexivity]. vm_compute. discriminate.
Qed.

End PageMore.

(** X22: in every session of the page, from its first render and
    whatever the chat route replies, no handler meets a missing
    conversation: every call runs to its end, and afterwards the active
    conversation is in the map and every conversation is stored under
    its own id. *)
Theorem page_session_keeps_its_conversations
  (fetchChat : jsstring -> list jsstring -> Page.ChatReply)
  (initialConversationId : option jsstring) (generated : jsstring)
  (actions : list Page.Action) :
  exists st,
    Page.run fetchChat (Page.initialState initialConversationId generated) actions = Some st
    /\ Page.consistent st.
Proof. apply consistent_run, consistent_initialState. Qed.

(** X23: a message that is not blank adds two messages to the active
    conversation, the question and then the reply (the answer with its
    sources, or the apology), leaves the other conversations and the
    URLs as they were, and ends the loading; a blank message changes
    nothing. *)
Theorem send_appends_question_and_reply
  (fetchChat : jsstring -> list jsstring -> Page.ChatReply)
  (message : jsstring) (st : Page.HomeState) (c : Conversation) :
  Page.conversations st !! Page.activeConversation st = Some c ->
  exists st',
    Page.handleSend fetchChat message st = Some st'
    /\ Page.activeConversation st' = Page.activeConversation st
    /\ (forall k, k <> Page.activeConversation st ->
          Page.conversations st' !! k = Page.conversations st !! k)
    /\ exists c',
         Page.conversations st' !! Page.activeConversation st = Some c'
         /\ id c' = id c /\ urls c' = urls c
         /\ messages c'
            = if nonEmpty (trim message)
              then messages c
                   ++ [ {| role := user; msg_content := message; sources := None |};
                        Page.replyMessage (fetchChat message (Page.urlList (urls c))) ]
              else messages c.
Proof.
  intros Hc. destruct (nonEmpty (trim message)) eqn:Hm.
  - rewrite (handleSend_sent fetchChat message st c Hm Hc). eexists.
    split; [reflexivity|]. cbn [Page.activeConversation Page.conversations].
    split; [reflexivity|]. split; [intros k Hk; now rewrite lookup_insert_ne|].
    eexists. rewrite lookup_insert_eq. split; [reflexivity|]. cbn. auto.
  - rewrite (handleSend_blank fetchChat message st Hm). exists st.
    split; [reflexivity|]. split; [reflexivity|]. split; [reflexivity|].
    exists c. auto.
Qed.

Lemma send_appends_question_and_reply_witness :
  exists st',
    Page.handleSend (fun _ _ => Page.ReplyNotOk) (lit "why?") MoreSamples.homeState = Some st'
    /\ Page.activeConversation st' = lit "k3x9q"
    /\ (forall k, k <> lit "k3x9q" ->
          Page.conversations st' !! k = Page.conversations MoreSamples.homeState !! k)
    /\ exists c',
         Page.conversations st' !! lit "k3x9q" = Some c'
         /\ id c' = lit "k3x9q" /\ urls c' = []
         /\ messages c'
            = [ Page.greeting;
                {| role := user; msg_content := lit "why?"; sources := None |};
                {| role := ai; msg_content := Page.APOLOGY; sources := None |} ].
Proof.
  apply (send_appends_question_and_reply (fun _ _ => Page.ReplyNotOk) (lit "why?")
           MoreSamples.homeState (Page.freshConversation (lit "k3x9q"))).
  apply lookup_singleton_eq.
Defined.

Section PageAndRoute.

Import Chat.

Variable w : World.

Lemma uniqueNames_strings (l : list jsstring) : uniqueNames (JArr (map JStr l)).
Proof. induction l as [|u l IH]; cbn; [exact I|]. split; [exact I|exact IH]. Qed.

Lemma uniqueNames_chatRequest (message : jsstring) (l : list jsstring) :
  uniqueNames (Page.chatRequest message l).
Proof.
  unfold Page.chatRequest. cbn [uniqueNames]. split.
  - apply (bool_decide_unpack _). vm_compute. exact I.
  - split; [exact I|]. split; [apply uniqueNames_strings|exact I].
Qed.

Lemma chatRequest_members (message : jsstring) (l : list jsstring) :
  member (lit "query") (Page.chatRequest message l) = Some (JStr message)
  /\ member (lit "urls") (Page.chatRequest message l) = Some (JArr (map JStr l)).
Proof. split; reflexivity. Qed.

Lemma skipped_strings (l : list jsstring) :
  Forall (fun u => validScheme u = false) l -> Forall skippedEntry (map JStr l).
Proof. induction 1; cbn; constructor; assumption. Qed.

Lemma scrapeWebsites_skipped (items : list json) :
  Forall skippedEntry items -> returned (scrapeWebsites w items) = [].
Proof.
  intros Hs. destruct (returned_scrapeWebsites w items) as [-> | ->]; [|reflexivity].
  apply (scrapeLoop_skipped w items Hs).
Qed.

End PageAndRoute.

(** X24: what the page sends passes the validation of the chat route.
    The request of a message that is not blank reads back from the wire
    as it was built, and the route does not answer it with 400. *)
Theorem page_request_passes_validation (w : World) (srv : Chat.Server)
  (message : jsstring) (urlList : list jsstring) :
  nonEmpty (trim message) = true ->
  Json.parse (Json.stringify (Page.chatRequest message urlList))
  = Some (Page.chatRequest message urlList)
  /\ Chat.chat_status (Chat.POST w srv (inr (Page.chatRequest message urlList))).2 <> 400.
Proof.
  intros Hm. split; [apply parse_stringify, uniqueNames_chatRequest|].
  destruct (Chat.getGroqClient w srv) as [e|srv'] eqn:Hg.
  { unfold Chat.POST. rewrite Hg. cbn. lia. }
  destruct (chatRequest_members message urlList) as [Hq Hu].
  destruct (POST_valid_status w srv srv' (Page.chatRequest message urlList)
              (map JStr urlList) Hg) as (t' & response & -> & Hs).
  - rewrite Hq. cbn. now apply trim_nonEmpty.
  - exact Hu.
  - exact Hs.
Qed.

Lemma page_request_passes_validation_witness :
  Json.parse (Json.stringify (Page.chatRequest (lit "why?") [lit "https://a.example"]))
  = Some (Page.chatRequest (lit "why?") [lit "https://a.example"])
  /\ Chat.chat_status
       (Chat.POST Samples.goodWorld Samples.configured
          (inr (Page.chatRequest (lit "why?") [lit "https://a.example"]))).2 <> 400.
Proof.
  apply (page_request_passes_validation Samples.goodWorld Samples.configured
           (lit "why?") [lit "https://a.example"]).
  reflexivity.
Defined.

(** X25: without a URL of the http or https scheme the page shows the
    apology.  Whatever the message, the world and the configuration of
    the server, a request whose list of URLs has no entry that starts
    with [http://] or [https://] (as when the URL field is empty) is
    answered with a status outside 200-299. *)
Theorem send_without_valid_url_gets_the_apology (w : World) (srv : Chat.Server)
  (message : jsstring) (urlList : list jsstring) :
  Forall (fun u => Chat.validScheme u = false) urlList ->
  Page.fetchFrom w srv message urlList = Page.ReplyNotOk
  /\ Page.replyMessage (Page.fetchFrom w srv message urlList)
     = {| role := ai; msg_content := Page.APOLOGY; sources := None |}.
Proof.
  intros Hall.
  assert (H : Page.fetchFrom w srv message urlList = Page.ReplyNotOk);
    [|now rewrite H].
  unfold Page.fetchFrom.
  destruct (Chat.getGroqClient w srv) as [e|srv'] eqn:Hg.
  { unfold Chat.POST. rewrite Hg. reflexivity. }
  destruct (chatRequest_members message urlList) as [Hq Hu].
  destruct (nonEmpty message) eqn:Hm.
  2:{ rewrite (POST_invalid w srv srv' (Page.chatRequest message urlList) Hg);
        [reflexivity|discriminate|]. left. rewrite Hq. exact Hm. }
  rewrite (POST_valid w srv srv' (Page.chatRequest message urlList)
             (map JStr urlList) Hg); [|rewrite Hq; exact Hm|exact Hu].
  pose proof (scrapeWebsites_skipped w (map JStr urlList) (skipped_strings urlList Hall))
    as Hr.
  destruct (Chat.scrapeWebsites w (map JStr urlList)) as [t [e|[|s l]]];
    cbn in Hr; try discriminate; reflexivity.
Qed.

Lemma send_without_valid_url_gets_the_apology_witness :
  Page.fetchFrom Samples.goodWorld Samples.configured (lit "why?") [lit "a.example"]
  = Page.ReplyNotOk
  /\ Page.replyMessage
       (Page.fetchFrom Samples.goodWorld Samples.configured (lit "why?") [lit "a.example"])
     = {| role := ai; msg_content := Page.APOLOGY; sources := None |}.
Proof.
  apply (send_without_valid_url_gets_the_apology Samples.goodWorld Samples.configured
           (lit "why?") [lit "a.example"]).
  repeat constructor.
Defined.



(** X27: the shared-chat page never shows the conversation it loaded.
    Once the load has ended the page shows no spinner; it shows the chat
    exactly when the fetch gave an ok response with a body whose
    [conversation] is truthy; the chat it shows is the initial state of
    [Home] for the id of the link, whose only message is the greeting;
    and a fetch that gave no ok response with a body shows the error. *)
Theorem shared_page_shows_a_fresh_chat
  (params_id generated : jsstring) (f : SharedPage.ShareFetch) :
  let view :=
    SharedPage.render params_id generated
      (SharedPage.loadSharedConversation f SharedPage.initial) in
  view <> SharedPage.Spinner
  /\ (forall st, view = SharedPage.HomeScreen st <->
        st = Page.initialState (Some params_id) generated
        /\ exists data conv,
             f = SharedPage.Fetched true (inr data)
             /\ member (lit "conversation") data = Some conv
             /\ truthy (Some conv) = true)
  /\ (forall st k c, view = SharedPage.HomeScreen st ->
        Page.conversations st !! k = Some c -> messages c = [Page.greeting])
  /\ ((forall data, f <> SharedPage.Fetched true (inr data)) ->
      view = SharedPage.ErrorScreen (lit "Failed to load shared conversation")).
Proof.
  cbv zeta.
  assert (Hfresh : forall k c,
    Page.conversations (Page.initialState (Some params_id) generated) !! k = Some c ->
    messages c = [Page.greeting]).
  { intros k c Hk. unfold Page.initialState in Hk. cbn [Page.conversations] in Hk.
    apply lookup_singleton_Some in Hk as [_ <-]. reflexivity. }
  assert (Hfailed : forall st0,
    SharedPage.render params_id generated
      {| SharedPage.isLoading := false;
         SharedPage.error := Some (lit "Failed to load shared conversation");
         SharedPage.conversation := SharedPage.conversation st0 |}
    = SharedPage.ErrorScreen (lit "Failed to load shared conversation")).
  { reflexivity. }
  destruct f as [|[|] [e|data]]; cbn [SharedPage.loadSharedConversation];
    try (rewrite Hfailed; split; [discriminate|]; split;
         [intros st; split; [discriminate|intros (_ & ? & ? & ? & _); discriminate]
         |split; [discriminate|reflexivity]]).
  assert (Hnull : data = JNull \/ data <> JNull)
    by (destruct data; (now left) || (right; discriminate)).
  destruct Hnull as [->|Hd].
  { rewrite Hfailed. split; [discriminate|]. split; [|split; [discriminate|reflexivity]].
    intros st; split; [discriminate|].
    intros (_ & data & conv & [= <-] & Hm & _). discriminate. }
  assert (Hload : SharedPage.loadSharedConversation (SharedPage.Fetched true (inr data))
                    SharedPage.initial
                  = {| SharedPage.isLoading := false; SharedPage.error := None;
                       SharedPage.conversation := member (lit "conversation") data |})
    by (destruct data; try reflexivity; contradiction).
  cbn [SharedPage.loadSharedConversation] in Hload |- *. rewrite Hload.
  unfold SharedPage.render.
  cbn [SharedPage.isLoading SharedPage.error SharedPage.conversation truthyString].
  destruct (member (lit "conversation") data) as [conv|] eqn:Hm.
  - destruct (truthy (Some conv)) eqn:Ht; cbn [negb].
    + split; [discriminate|]. split.
      * intros st. split.
        -- intros [= <-]. split; [reflexivity|]. now exists data, conv.
        -- intros [-> _]. reflexivity.
      * split; [intros st k c [= <-]; apply Hfresh|].
        intros Hno. now destruct (Hno data).
    + split; [discriminate|]. split.
      * intros st. split; [discriminate|].
        intros (_ & d & cv & [= <-] & Hm' & Ht'). congruence.
      * split; [discriminate|]. intros Hno. now destruct (Hno data).
  - cbn. split; [discriminate|]. split.
    + intros st. split; [discriminate|].
      intros (_ & d & cv & [= <-] & Hm' & _). congruence.
    + split; [discriminate|]. intros Hno. now destruct (Hno data).
Qed.

(** X28: what the page renders for a collected source.  For every
    source the collector returns, the link goes to a URL of the http or
    https scheme, and its text is the title of the source, which is not
    empty: the URL is never needed in its place. *)
Theorem collected_sources_are_rendered_with_their_title (w : World) (urls : list json) :
  Forall (fun s =>
            Chat.validScheme (url s) = true
            /\ title s = Some (Page.linkText s)
            /\ Page.linkText s <> [])
    (returned (Chat.scrapeWebsites w urls)).
Proof.
  apply scrapeWebsites_Forall. intros k u s Hv Hs.
  destruct (scrapeTry_Some w _ _ _ Hs) as (dom & _ & _ & ->).
  pose proof (pageTitle_nonempty dom u (validScheme_nonempty u Hv)) as Ht.
  unfold Page.linkText. cbn [url title content truthyString default].
  rewrite (proj2 (nonEmpty_true _) Ht). unfold Datatypes.id.
  repeat split; assumption.
Qed.
